(** * Permission-matrix editors: Group Roles and Security Rules

    A shallow embedding of the state handlers of the two React client
    components [GroupRolesClient] and [SecurityRulesClient].  The two
    components are the same program up to renaming (Role/Rule), the
    [description] field that only a Role has, the default name given to a
    new entity, and the seed data.  The handlers are therefore embedded
    once, in a Section over the type of the description and the two
    defaults, and instantiated twice.

    React state is modelled by explicit state passing: a handler reads the
    state variables of the render it was created in and returns the state
    after its [set...] calls.  No handler updates an array or an object in
    place (each one copies first: a spread, [filter], [map], or [splice]
    on a fresh copy), so values are modelled as immutable data. *)

From Stdlib Require Import ZArith Lia DecimalString Ascii.
From stdpp Require Import base decidable option list strings.

Local Open Scope string_scope.
Local Open Scope Z_scope.

(** ** JavaScript numbers used as identifiers

    Identifiers are [number]s, that is doubles.  The only operations
    applied to them are [===], [Math.max(...ids) + 1] and conversion to a
    string.  Starting from integer seeds these produce integers, or
    [-Infinity] when [Math.max] is applied to no argument.  [Num z] is the
    double of integer value [z]; the values of the program are those with
    [isDouble z], and [+ 1] rounds as a double does. *)

Inductive number : Type :=
  | NegInfinity
  | Num (z : Z).

#[global] Instance number_eq_dec : EqDecision number.
Proof. solve_decision. Defined.

Definition number_max (a b : number) : number :=
  match a, b with
  | NegInfinity, _ => b
  | _, NegInfinity => a
  | Num x, Num y => Num (Z.max x y)
  end.

(** [Math.max(...xs)]: [-Infinity] when [xs] is empty. *)
Definition Math_max (xs : list number) : number :=
  foldr number_max NegInfinity xs.

(** The double nearest to the integer [x], ties going to the even
    significand: a double has 53 significant bits, so from 2^53 on only
    the multiples of [2 ^ e] are doubles, [e] being the bit length of [x]
    less 53.  (Above the largest double, [2^1024 - 2^970], a double
    overflows to [Infinity]; [x + 1] does not get there from a double.) *)
Definition roundToDouble (x : Z) : Z :=
  let a := Z.abs x in
  if a <? 9007199254740992 then x
  else
    let e := Z.log2 a - 52 in
    let q := a / 2 ^ e in
    let r := a mod 2 ^ e in
    let half := 2 ^ (e - 1) in
    let q' := if r <? half then q
              else if half <? r then q + 1
              else if Z.even q then q else q + 1 in
    Z.sgn x * (q' * 2 ^ e).

(** The integers a double holds. *)
Definition isDouble (z : Z) : Prop :=
  roundToDouble z = z /\ Z.abs z < 2 ^ 1024.

(** [Number.isSafeInteger(x)]: an integer of magnitude at most 2^53 - 1. *)
Definition isSafeInteger (x : number) : Prop :=
  match x with
  | NegInfinity => False
  | Num z => - 9007199254740992 < z < 9007199254740992
  end.

(** [x + 1], in double arithmetic. *)
Definition plus1 (x : number) : number :=
  match x with
  | NegInfinity => NegInfinity
  | Num z => Num (roundToDouble (z + 1))
  end.

(** [x < y] on numbers. *)
Definition number_lt (x y : number) : Prop :=
  match x, y with
  | NegInfinity, NegInfinity => False
  | NegInfinity, Num _ => True
  | Num _, NegInfinity => False
  | Num a, Num b => a < b
  end.

(** The decimal digits of a non-negative integer. *)
Definition decimal (v : Z) : string := NilZero.string_of_int (Z.to_int v).

(** [Number::toString] picks the decimal with the fewest significant
    digits that still reads back as the double [v], and among those the
    one nearest to [v].  With [k] significant digits out of [n] the
    candidates are the multiples of [10 ^ (n - k)] just below and just
    above [v]; [k] counts up from 1. *)
Fixpoint shortestDecimal (fuel : nat) (n k v : Z) : Z :=
  match fuel with
  | O => v
  | S fuel' =>
      let t := 10 ^ (n - k) in
      let lo := v / t * t in
      let hi := lo + t in
      let okLo := roundToDouble lo =? v in
      let okHi := roundToDouble hi =? v in
      if okLo && okHi then
        if v - lo <? hi - v then lo
        else if hi - v <? v - lo then hi
        else if Z.even (v / t) then lo else hi
      else if okLo then lo
      else if okHi then hi
      else shortestDecimal fuel' n (k + 1) v
  end.

Fixpoint dropZeros (l : list ascii) : list ascii :=
  match l with
  | "0"%char :: l' => dropZeros l'
  | _ => l
  end.

(** Up to 21 digits the decimal is written out; beyond, it is written as
    [d.ddd] followed by [e+] and the exponent. *)
Definition formatDecimal (c : Z) : string :=
  let digits := String.list_ascii_of_string (decimal c) in
  let n := Z.of_nat (length digits) in
  if n <=? 21 then decimal c
  else
    match rev (dropZeros (rev digits)) with
    | [] => decimal c
    | [d] => String d (String.append "e+" (decimal (n - 1)))
    | d :: ds =>
        String d (String.append "."
          (String.append (String.string_of_list_ascii ds)
             (String.append "e+" (decimal (n - 1)))))
    end.

Definition toStringPositive (v : Z) : string :=
  let n := Z.of_nat (String.length (decimal v)) in
  formatDecimal (shortestDecimal (Z.to_nat n) n 1 v).

(** The string a template literal produces for a number. *)
Definition number_toString (x : number) : string :=
  match x with
  | NegInfinity => "-Infinity"
  | Num z =>
      if z <? 0 then String.append "-" (toStringPositive (- z))
      else toStringPositive z
  end.

Arguments roundToDouble : simpl never.
Arguments number_toString : simpl never.

(** ** Data model *)

(** [type Permission = 'Read' | 'Add' | 'Edit' | 'Modify' | 'Delete' | 'Post'] *)
Inductive Permission : Type := Read | Add | Edit | Modify | Delete | Post.

#[global] Instance Permission_eq_dec : EqDecision Permission.
Proof. solve_decision. Defined.

Definition allPermissions : list Permission :=
  [Read; Add; Edit; Modify; Delete; Post].

Definition allResources : list string :=
  ["Group Members"; "Forum Categories"; "Category1"; "Category2";
   "User Profiles"; "System Settings"; "Audit Logs"].

(** [type Resource = { name: string; permissions: Permission[] }] *)
Module Resource.
Record t : Type := mk { name : string; permissions : list Permission }.
End Resource.

(** [type Role = { id; name; description; resources }].  A Rule is a Role
    whose description carries no information ([D := unit]). *)
Module Role.
Record t (D : Type) : Type :=
  mk { id : number; name : string; description : D;
       resources : list Resource.t }.
Arguments mk {D} _ _ _ _.
Arguments id {D} _.
Arguments name {D} _.
Arguments description {D} _.
Arguments resources {D} _.
End Role.

#[global] Instance Resource_eq_dec : EqDecision Resource.t.
Proof. solve_decision. Defined.

#[global] Instance Role_eq_dec {D} `{EqDecision D} : EqDecision (Role.t D).
Proof. solve_decision. Defined.

(** ** JavaScript array primitives *)

(** [arr[i]]: [undefined] (here [None]) outside [0 .. length-1]. *)
Definition js_index {A} (arr : list A) (i : Z) : option A :=
  if i <? 0 then None else arr !! Z.to_nat i.

(** [arr.splice(start, 1)] on a copy: a negative [start] counts from the
    end (clamped at 0); a [start] beyond the end removes nothing. *)
Definition splice1 {A} (arr : list A) (start : Z) : list A :=
  let len := Z.of_nat (length arr) in
  let actualStart :=
    if start <? 0 then Z.max (len + start) 0 else Z.min start len in
  delete (Z.to_nat actualStart) arr.

(** [perms.includes(p)] *)
Definition includes (p : Permission) (perms : list Permission) : bool :=
  bool_decide (p ∈ perms).

(** ** The component *)

Section Editor.
Context {D : Type}.
(** The description of a new entity (['']) and the prefix of its name
    (['New '] for roles, ['New Rule '] for rules). *)
Variable newDescription : D.
Variable newNamePrefix : string.

(** The component's state variables. *)
Record State : Type := mkState {
  roles : list (Role.t D);
  selectedRoleId : number;
  editingRole : Role.t D;
  isResourceDropdownOpen : bool;
  deletingRoleId : option number
}.

(** [useState] initial values: [initialRoles], [1], [initialRoles[0]],
    [false], [null].  An empty seed has no [initialRoles[0]]. *)
Definition initialState (initialRoles : list (Role.t D)) : option State :=
  match initialRoles with
  | [] => None
  | r0 :: _ => Some (mkState initialRoles (Num 1) r0 false None)
  end.

(** State setters. *)
Definition setRoles (v : list (Role.t D)) (st : State) : State :=
  mkState v (selectedRoleId st) (editingRole st)
    (isResourceDropdownOpen st) (deletingRoleId st).

Definition setSelectedRoleId (v : number) (st : State) : State :=
  mkState (roles st) v (editingRole st)
    (isResourceDropdownOpen st) (deletingRoleId st).

Definition setEditingRole (v : Role.t D) (st : State) : State :=
  mkState (roles st) (selectedRoleId st) v
    (isResourceDropdownOpen st) (deletingRoleId st).

Definition setIsResourceDropdownOpen (v : bool) (st : State) : State :=
  mkState (roles st) (selectedRoleId st) (editingRole st) v
    (deletingRoleId st).

Definition setDeletingRoleId (v : option number) (st : State) : State :=
  mkState (roles st) (selectedRoleId st) (editingRole st)
    (isResourceDropdownOpen st) v.

(** [{ ...role, resources: rs }] *)
Definition withResources (role : Role.t D) (rs : list Resource.t) : Role.t D :=
  Role.mk (Role.id role) (Role.name role) (Role.description role) rs.

(** [roles.find(r => r.id === roleId)] *)
Definition findRole (rs : list (Role.t D)) (roleId : number)
  : option (Role.t D) :=
  List.find (fun r => bool_decide (Role.id r = roleId)) rs.

(** [handleSelectRole] / [handleSelectRule] *)
Definition handleSelectRole (st : State) (roleId : number) : State :=
  let st1 := setSelectedRoleId roleId st in
  match findRole (roles st) roleId with
  | Some role => setEditingRole role st1
  | None => st1
  end.

(** [handleRoleNameChange] / [handleRuleNameChange] *)
Definition handleRoleNameChange (st : State) (value : string) : State :=
  let e := editingRole st in
  setEditingRole
    (Role.mk (Role.id e) value (Role.description e) (Role.resources e)) st.

(** [handleRoleDescriptionChange] (roles only) *)
Definition handleRoleDescriptionChange (st : State) (value : D) : State :=
  let e := editingRole st in
  setEditingRole
    (Role.mk (Role.id e) (Role.name e) value (Role.resources e)) st.

(** The two branches of [handlePermissionChange] on the attachment:
    remove the permission if present, append it otherwise. *)
Definition togglePermissionOf (res : Resource.t) (permission : Permission)
  : Resource.t :=
  let currentPermissions := Resource.permissions res in
  if includes permission currentPermissions
  then Resource.mk (Resource.name res)
         (filter (fun p => p ≠ permission) currentPermissions)
  else Resource.mk (Resource.name res) (currentPermissions ++ [permission]).

(** [handlePermissionChange].  [None]: the handler throws on reading
    [.permissions] of [undefined], and sets no state. *)
Definition handlePermissionChange (st : State) (resourceIndex : Z)
    (permission : Permission) : option State :=
  let updatedResources := Role.resources (editingRole st) in
  match js_index updatedResources resourceIndex with
  | None => None
  | Some res =>
      let updatedResources' :=
        <[Z.to_nat resourceIndex := togglePermissionOf res permission]>
          updatedResources in
      Some (setEditingRole
              (withResources (editingRole st) updatedResources') st)
  end.

(** [handleSaveChanges] *)
Definition handleSaveChanges (st : State) : State :=
  setRoles
    (map (fun role =>
            if decide (Role.id role = Role.id (editingRole st))
            then editingRole st else role)
         (roles st))
    st.

(** [handleAddRole] / [handleAddRule] *)
Definition handleAddRole (st : State) : State :=
  let newId := plus1 (Math_max (map Role.id (roles st))) in
  let newRole :=
    Role.mk newId (String.append newNamePrefix (number_toString newId))
      newDescription [] in
  setEditingRole newRole
    (setSelectedRoleId newId (setRoles (roles st ++ [newRole]) st)).

(** [handleDeleteRole] / [handleDeleteRule]: sets the confirmation latch. *)
Definition handleDeleteRole (st : State) (roleId : number) : State :=
  setDeletingRoleId (Some roleId) st.

(** [confirmDeleteRole] / [confirmDeleteRule] *)
Definition confirmDeleteRole (st : State) : State :=
  match deletingRoleId st with
  | None => st
  | Some deleting =>
      let updatedRoles :=
        filter (fun role => Role.id role ≠ deleting) (roles st) in
      let st1 := setRoles updatedRoles st in
      let st2 :=
        if decide (selectedRoleId st = deleting) then
          match updatedRoles with
          | first :: _ =>
              setEditingRole first (setSelectedRoleId (Role.id first) st1)
          | [] => setSelectedRoleId (Num 0) st1
          end
        else st1 in
      setDeletingRoleId None st2
  end.

(** [cancelDeleteRole] / [cancelDeleteRule] *)
Definition cancelDeleteRole (st : State) : State :=
  setDeletingRoleId None st.

(** [handleRemoveResource] *)
Definition handleRemoveResource (st : State) (index : Z) : State :=
  let updatedResources := splice1 (Role.resources (editingRole st)) index in
  setEditingRole (withResources (editingRole st) updatedResources) st.

(** [editingRole.resources.some(r => r.name === resource)] *)
Definition hasResource (st : State) (resource : string) : bool :=
  existsb (fun r => bool_decide (Resource.name r = resource))
    (Role.resources (editingRole st)).

(** The entries of the "add resource" dropdown:
    [allResources.filter(resource => !editingRole.resources.some(...))] *)
Definition dropdownResources (st : State) : list string :=
  List.filter (fun resource => negb (hasResource st resource)) allResources.

(** The [onClick] of a dropdown entry: closes the dropdown and appends
    [{ name: resource, permissions: [] }] to the draft's resources. *)
Definition attachResource (st : State) (resource : string) : State :=
  setEditingRole
    (withResources (editingRole st)
       (Role.resources (editingRole st) ++ [Resource.mk resource []]))
    (setIsResourceDropdownOpen false st).

(** The dropdown button: [setIsResourceDropdownOpen(!isResourceDropdownOpen)] *)
Definition toggleResourceDropdown (st : State) : State :=
  setIsResourceDropdownOpen (negb (isResourceDropdownOpen st)) st.

(** [handleClickOutside], for a click outside the dropdown. *)
Definition handleClickOutside (st : State) : State :=
  if isResourceDropdownOpen st then setIsResourceDropdownOpen false st else st.

(** ** The operations as events

    One constructor per operation of the editor.  [step] runs the handler;
    it is [None] where the handler throws, and where [attachResource] is
    asked for a resource the draft already has (the dropdown does not
    offer it).  Every other argument is accepted, also those the
    operations' preconditions exclude. *)
Inductive Event : Type :=
  | SelectEntity (roleId : number)
  | ChangeName (value : string)
  | ChangeDescription (value : D)
  | TogglePermission (resourceIndex : Z) (permission : Permission)
  | SaveDraft
  | AddEntity
  | RequestDelete (roleId : number)
  | ConfirmDelete
  | CancelDelete
  | DetachResource (index : Z)
  | AttachResource (resource : string)
  | ToggleDropdown
  | ClickOutside.

Definition step (st : State) (ev : Event) : option State :=
  match ev with
  | SelectEntity roleId => Some (handleSelectRole st roleId)
  | ChangeName value => Some (handleRoleNameChange st value)
  | ChangeDescription value => Some (handleRoleDescriptionChange st value)
  | TogglePermission i p => handlePermissionChange st i p
  | SaveDraft => Some (handleSaveChanges st)
  | AddEntity => Some (handleAddRole st)
  | RequestDelete roleId => Some (handleDeleteRole st roleId)
  | ConfirmDelete => Some (confirmDeleteRole st)
  | CancelDelete => Some (cancelDeleteRole st)
  | DetachResource index => Some (handleRemoveResource st index)
  | AttachResource resource =>
      if hasResource st resource then None
      else Some (attachResource st resource)
  | ToggleDropdown => Some (toggleResourceDropdown st)
  | ClickOutside => Some (handleClickOutside st)
  end.

(** The states an initial state reaches by a sequence of events. *)
Inductive reachable (st0 : State) : State -> Prop :=
  | reachable_init : reachable st0 st0
  | reachable_step st ev st' :
      reachable st0 st -> step st ev = Some st' -> reachable st0 st'.

(** ** Well-formed attachments *)

(** Resource names are pairwise distinct, and no attachment lists a
    permission twice. *)
Definition wfResources (rs : list Resource.t) : Prop :=
  NoDup (map Resource.name rs) /\
  Forall (fun r => NoDup (Resource.permissions r)) rs.

Definition wfRole (role : Role.t D) : Prop := wfResources (Role.resources role).

Definition wfState (st : State) : Prop :=
  Forall wfRole (roles st) /\ wfRole (editingRole st).

(** A draft that carries nothing of an entity: the reading of "the Draft
    is cleared" for a state variable whose type has no [null]. *)
Definition draftCleared (role : Role.t D) : Prop :=
  Role.name role = "" /\ Role.resources role = [].

End Editor.

Arguments State : clear implicits.
Arguments Event : clear implicits.

(** ** The two components *)

(** [GroupRolesClient] *)
Module GroupRoles.

Definition initialRoles : list (Role.t string) :=
  [ Role.mk (Num 1) "Member" "Basic access for regular users"
      [ Resource.mk "Group Members" [Read; Add; Delete];
        Resource.mk "Forum Categories" [Read; Add; Modify; Delete; Post];
        Resource.mk "Category1" [Edit; Delete; Post];
        Resource.mk "Category2" [Post] ];
    Role.mk (Num 2) "Admin" "Full access for administrators"
      [ Resource.mk "Group Members" [Read; Add; Delete];
        Resource.mk "Forum Categories" [Read; Add; Modify; Delete; Post] ];
    Role.mk (Num 3) "Moderator" "Moderation capabilities for forum content"
      [ Resource.mk "Forum Categories" [Read; Edit; Modify; Delete; Post];
        Resource.mk "Category1" [Read; Edit; Delete; Post];
        Resource.mk "Category2" [Read; Edit; Post] ] ].

(** The first render's state. *)
Definition init : State string :=
  mkState initialRoles (Num 1)
    (Role.mk (Num 1) "Member" "Basic access for regular users"
      [ Resource.mk "Group Members" [Read; Add; Delete];
        Resource.mk "Forum Categories" [Read; Add; Modify; Delete; Post];
        Resource.mk "Category1" [Edit; Delete; Post];
        Resource.mk "Category2" [Post] ])
    false None.

Definition handleAddRole : State string -> State string :=
  handleAddRole "" "New ".

Definition step : State string -> Event string -> option (State string) :=
  step "" "New ".

End GroupRoles.

(** [SecurityRulesClient] *)
Module SecurityRules.

Definition initialRules : list (Role.t unit) :=
  [ Role.mk (Num 1) "Default Rule" tt
      [ Resource.mk "Group Members" [Read; Add; Delete];
        Resource.mk "Forum Categories" [Read; Add; Modify; Delete; Post];
        Resource.mk "Category1" [Edit; Delete; Post];
        Resource.mk "Category2" [Post] ];
    Role.mk (Num 2) "Admin Rule" tt
      [ Resource.mk "Group Members" [Read; Add; Delete];
        Resource.mk "Forum Categories" [Read; Add; Modify; Delete; Post] ] ].

(** The first render's state. *)
Definition init : State unit :=
  mkState initialRules (Num 1)
    (Role.mk (Num 1) "Default Rule" tt
      [ Resource.mk "Group Members" [Read; Add; Delete];
        Resource.mk "Forum Categories" [Read; Add; Modify; Delete; Post];
        Resource.mk "Category1" [Edit; Delete; Post];
        Resource.mk "Category2" [Post] ])
    false None.

Definition handleAddRule : State unit -> State unit :=
  handleAddRole tt "New Rule ".

Definition step : State unit -> Event unit -> option (State unit) :=
  step tt "New Rule ".

End SecurityRules.

(** ** States of the scenarios *)

Module Scenario.

(** [{id:1, name:"Member", resources:[{"Group Members":[Read,Add,Delete]}]}] *)
Definition member : Role.t string :=
  Role.mk (Num 1) "Member" "" [Resource.mk "Group Members" [Read; Add; Delete]].

(** A collection holding only [member], selected and open as draft. *)
Definition single : State string :=
  mkState [member] (Num 1) member false None.

(** An empty collection, as left by deleting the last entity of [single]. *)
Definition emptied : State string :=
  mkState [] (Num 0) member false None.

(** Runs a sequence of operations of the Group Roles editor; [None] as
    soon as one of them does not return. *)
Definition run (st : State string) (evs : list (Event string))
  : option (State string) :=
  foldl (fun acc ev => match acc with
                       | Some s => GroupRoles.step s ev
                       | None => None
                       end)
    (Some st) evs.

(** The role the Group Roles editor adds under the id [n], and the state
    in which it is the only entity, selected and open as draft. *)
Definition added (n : Z) : Role.t string :=
  Role.mk (Num n) (String.append "New " (number_toString (Num n))) "" [].

Definition only (n : Z) : State string :=
  mkState [added n] (Num n) (added n) false None.

End Scenario.

(** ** What the component renders *)

Section Rendering.
Context {D : Type}.
Variable newDescription : D.
Variable newNamePrefix : string.

(** [const selectedRole = roles.find(role => role.id === selectedRoleId)
      || roles[0]]: [None] is [undefined], on which the heading's
    [selectedRole.name] throws. *)
Definition selectedRole (st : State D) : option (Role.t D) :=
  match findRole (roles st) (selectedRoleId st) with
  | Some role => Some role
  | None => js_index (roles st) 0
  end.

(** [const isEnabled = resource.permissions.includes(permission)]: whether
    a permission is drawn as granted. *)
Definition isEnabled (resource : Resource.t) (permission : Permission) : bool :=
  includes permission (Resource.permissions resource).

(** The calls the rendered controls can make in a state: the list items
    select and request deletion of a listed id, the Cancel button selects
    the current Selection, the dialog's buttons exist while an id is
    pending, each row of the table toggles and detaches at its own index,
    and the open dropdown attaches one of its entries.  The Rules editor
    has no description field: there [D] is [unit] and the event changes
    nothing.  The heading throws on an empty Collection and the dialog
    covers the page; the controls are taken as offered all the same, which
    only adds reached states. *)
Definition offered (st : State D) (ev : Event D) : bool :=
  match ev with
  | SelectEntity roleId =>
      bool_decide (roleId ∈ map Role.id (roles st))
      || bool_decide (roleId = selectedRoleId st)
  | RequestDelete roleId => bool_decide (roleId ∈ map Role.id (roles st))
  | ConfirmDelete | CancelDelete =>
      match deletingRoleId st with Some _ => true | None => false end
  | TogglePermission index _ | DetachResource index =>
      (0 <=? index)
      && (index <? Z.of_nat (length (Role.resources (editingRole st))))
  | AttachResource resource =>
      isResourceDropdownOpen st
      && bool_decide (resource ∈ dropdownResources st)
  | ChangeName _ | ChangeDescription _ | SaveDraft | AddEntity
  | ToggleDropdown | ClickOutside => true
  end.

(** The states reached from [st0] through the rendered controls. *)
Inductive uiReachable (st0 : State D) : State D -> Prop :=
  | uiReachable_init : uiReachable st0 st0
  | uiReachable_step st ev st' :
      uiReachable st0 st ->
      offered st ev = true ->
      step newDescription newNamePrefix st ev = Some st' ->
      uiReachable st0 st'.

(** Selection names an entity of the Collection, or the Collection is
    empty and Selection is 0. *)
Definition selectionOk (st : State D) : Prop :=
  selectedRoleId st ∈ map Role.id (roles st)
  \/ (roles st = [] /\ selectedRoleId st = Num 0).

(** While the Collection is not empty the Draft carries the selected id. *)
Definition draftOk (st : State D) : Prop :=
  roles st ≠ [] -> Role.id (editingRole st) = selectedRoleId st.

(** A pending deletion names an entity of the Collection. *)
Definition latchOk (st : State D) : Prop :=
  forall deleting,
    deletingRoleId st = Some deleting -> deleting ∈ map Role.id (roles st).

(** Identifiers are integers and pairwise distinct. *)
Definition idsOk (rs : list (Role.t D)) : Prop :=
  NoDup (map Role.id rs) /\ Forall (fun role => Role.id role ≠ NegInfinity) rs.

(** Every attachment is of a catalogued resource. *)
Definition catalogued (role : Role.t D) : Prop :=
  Forall (fun r => Resource.name r ∈ allResources) (Role.resources role).

Definition cataloguedState (st : State D) : Prop :=
  Forall catalogued (roles st) /\ catalogued (editingRole st).

End Rendering.

(** * Properties *)

(** Closes a decidable closed goal by evaluating its decision procedure. *)
Ltac by_compute := apply (bool_decide_unpack _); vm_compute; exact I.

(** ** Array primitives *)

Lemma js_index_Some {A} (arr : list A) (i : Z) (x : A) :
  js_index arr i = Some x <-> 0 <= i /\ arr !! Z.to_nat i = Some x.
Proof.
  unfold js_index. destruct (Z.ltb_spec i 0); split.
  - done.
  - intros [? _]. lia.
  - done.
  - by intros [_ ?].
Qed.

Lemma js_index_valid {A} (arr : list A) (i : Z) :
  0 <= i < Z.of_nat (length arr) -> exists x, js_index arr i = Some x.
Proof.
  intros Hi. destruct (lookup_lt_is_Some_2 arr (Z.to_nat i)) as [x Hx]; [lia|].
  exists x. apply js_index_Some. split; [lia | done].
Qed.

(** Removing at the index just past [l] drops the appended element. *)
Lemma splice1_snoc {A} (l : list A) (x : A) :
  splice1 (l ++ [x]) (Z.of_nat (length l)) = l.
Proof.
  unfold splice1. rewrite length_app. simpl.
  destruct (Z.ltb_spec (Z.of_nat (length l)) 0); [lia|].
  replace (Z.to_nat _) with (length l) by lia.
  rewrite delete_middle. apply app_nil_r.
Qed.

Lemma splice1_sublist {A} (l : list A) (i : Z) : splice1 l i `sublist_of` l.
Proof. apply sublist_delete. Qed.

(** ** Selection *)

Section SelectionFacts.
Context {D : Type}.
Implicit Types (st : State D) (rs : list (Role.t D)) (E : Role.t D).

Lemma findRole_Some rs roleId role :
  findRole rs roleId = Some role -> role ∈ rs /\ Role.id role = roleId.
Proof.
  unfold findRole. intros H. apply find_some in H as [Hin Hid].
  split; [by apply list_elem_of_In | by apply bool_decide_eq_true in Hid].
Qed.

Lemma findRole_None rs roleId :
  findRole rs roleId = None <->
  (forall role, role ∈ rs -> Role.id role ≠ roleId).
Proof.
  unfold findRole. induction rs as [|r rs IH]; simpl.
  - split; [intros _ role Hin; by apply elem_of_nil in Hin | done].
  - case_bool_decide as Hr.
    + split; [done|]. intros H. exfalso. apply (H r); [left | done].
    + rewrite IH. split.
      * intros H role [->|Hin]%elem_of_cons; [done | by apply H].
      * intros H role Hin. apply H. by right.
Qed.

(** With identifiers unique, [find] returns the entity itself. *)
Lemma findRole_unique rs E :
  NoDup (map Role.id rs) -> E ∈ rs -> findRole rs (Role.id E) = Some E.
Proof.
  unfold findRole. induction rs as [|r rs IH]; simpl; intros Hnd Hin.
  - by apply elem_of_nil in Hin.
  - apply NoDup_cons in Hnd as [Hr Hnd].
    apply elem_of_cons in Hin as [->|Hin].
    + by rewrite bool_decide_eq_true_2.
    + rewrite bool_decide_eq_false_2; [by apply IH|].
      intros Heq. apply Hr. rewrite Heq.
      apply list_elem_of_fmap. by exists E.
Qed.

(** C5. For every entity E of a Collection keyed by identifier (no two
    entities share one), selectEntity(E.id) sets Selection to E.id and
    makes Draft equal to E; the Collection is untouched, and the outcome
    does not depend on the Draft held before, whose unsaved edits are
    thereby discarded. *)
Theorem C5_selectEntity_loads_entity st E :
  NoDup (map Role.id (roles st)) ->
  E ∈ roles st ->
  let st' := handleSelectRole st (Role.id E) in
  selectedRoleId st' = Role.id E /\
  editingRole st' = E /\
  roles st' = roles st /\
  (forall unsaved,
     handleSelectRole (setEditingRole unsaved st) (Role.id E) = st').
Proof.
  intros Hnd Hin. unfold handleSelectRole. simpl.
  rewrite (findRole_unique _ _ Hnd Hin). done.
Qed.

(** C10. For an id that no entity of the Collection has, selectEntity(id)
    still sets Selection to that id and leaves Draft as it was: Selection
    then names no entity of the Collection. *)
Theorem C10_selectEntity_unknown_id st roleId :
  (forall role, role ∈ roles st -> Role.id role ≠ roleId) ->
  let st' := handleSelectRole st roleId in
  selectedRoleId st' = roleId /\
  editingRole st' = editingRole st /\
  roles st' = roles st /\
  (forall role, role ∈ roles st' -> Role.id role ≠ selectedRoleId st').
Proof.
  intros Hno. unfold handleSelectRole.
  apply findRole_None in Hno as Hfind. rewrite Hfind. simpl. done.
Qed.

End SelectionFacts.

Lemma C5_selectEntity_loads_entity_witness :
  let E := Role.mk (Num 2) "Admin" "Full access for administrators"
      [ Resource.mk "Group Members" [Read; Add; Delete];
        Resource.mk "Forum Categories" [Read; Add; Modify; Delete; Post] ] in
  selectedRoleId (handleSelectRole GroupRoles.init (Num 2)) = Num 2 /\
  editingRole (handleSelectRole GroupRoles.init (Num 2)) = E.
Proof.
  intros E.
  assert (Hnd : NoDup (map Role.id (roles GroupRoles.init))).
  { by_compute. }
  assert (Hin : E ∈ roles GroupRoles.init).
  { by_compute. }
  destruct (C5_selectEntity_loads_entity GroupRoles.init E Hnd Hin) as (H1 & H2 & _).
  split; [exact H1 | exact H2].
Defined.

Lemma C10_selectEntity_unknown_id_witness :
  selectedRoleId (handleSelectRole GroupRoles.init (Num 7)) = Num 7 /\
  editingRole (handleSelectRole GroupRoles.init (Num 7))
  = editingRole GroupRoles.init.
Proof.
  assert (Hno : forall role,
             role ∈ roles GroupRoles.init -> Role.id role ≠ Num 7).
  { apply Forall_forall. by_compute. }
  destruct (C10_selectEntity_unknown_id GroupRoles.init (Num 7) Hno)
    as (H1 & H2 & _).
  split; [exact H1 | exact H2].
Defined.

(** ** Deletion latch *)

Section DeleteFacts.
Context {D : Type}.
Implicit Types (st : State D).

(** C7. With nothing pending, confirmDelete() returns the state it was
    given: Collection, Selection and Draft are unchanged and the latch is
    still clear.  In every state the latch is clear after confirmDelete()
    and after cancelDelete(), and cancelDelete() changes nothing else. *)
Theorem C7_delete_latch st :
  (deletingRoleId st = None -> confirmDeleteRole st = st) /\
  deletingRoleId (confirmDeleteRole st) = None /\
  deletingRoleId (cancelDeleteRole st) = None /\
  roles (cancelDeleteRole st) = roles st /\
  selectedRoleId (cancelDeleteRole st) = selectedRoleId st /\
  editingRole (cancelDeleteRole st) = editingRole st.
Proof.
  repeat split.
  - unfold confirmDeleteRole. by intros ->.
  - unfold confirmDeleteRole. by destruct (deletingRoleId st) eqn:E.
Qed.

End DeleteFacts.

Lemma C7_delete_latch_witness :
  confirmDeleteRole GroupRoles.init = GroupRoles.init.
Proof.
  apply (proj1 (C7_delete_latch GroupRoles.init)). reflexivity.
Defined.

(** ** Draft editing *)

Section DraftFacts.
Context {D : Type}.
Implicit Types (st : State D) (role : Role.t D).

Lemma withResources_same role : withResources role (Role.resources role) = role.
Proof. by destruct role. Qed.

Lemma withResources_twice role rs rs' :
  withResources (withResources role rs) rs' = withResources role rs'.
Proof. done. Qed.

(** A valid index makes [handlePermissionChange] return. *)
Lemma handlePermissionChange_valid st i p :
  0 <= i < Z.of_nat (length (Role.resources (editingRole st))) ->
  exists res,
    Role.resources (editingRole st) !! Z.to_nat i = Some res /\
    handlePermissionChange st i p
    = Some (setEditingRole
              (withResources (editingRole st)
                 (<[Z.to_nat i := togglePermissionOf res p]>
                    (Role.resources (editingRole st)))) st).
Proof.
  intros Hi. destruct (js_index_valid _ _ Hi) as [res Hres].
  exists res. unfold handlePermissionChange. rewrite Hres.
  apply js_index_Some in Hres as [_ Hres]. done.
Qed.

(** An index out of range makes it throw. *)
Lemma handlePermissionChange_invalid st i p :
  ¬ (0 <= i < Z.of_nat (length (Role.resources (editingRole st)))) ->
  handlePermissionChange st i p = None.
Proof.
  intros Hi. unfold handlePermissionChange.
  destruct (js_index _ i) as [res|] eqn:Hres; [|done].
  apply js_index_Some in Hres as [H0 Hres].
  apply lookup_lt_Some in Hres. lia.
Qed.

(** C9. attachResource, detachResource and togglePermission leave the
    Collection, the Selection and the deletion latch as they are, for
    every argument; togglePermission returns for every valid index.  Only
    saveDraft() carries a detachment into the Collection. *)
Theorem C9_draft_edits_frame st :
  (forall resource,
     let st' := attachResource st resource in
     roles st' = roles st /\ selectedRoleId st' = selectedRoleId st /\
     deletingRoleId st' = deletingRoleId st) /\
  (forall index,
     let st' := handleRemoveResource st index in
     roles st' = roles st /\ selectedRoleId st' = selectedRoleId st /\
     deletingRoleId st' = deletingRoleId st /\
     isResourceDropdownOpen st' = isResourceDropdownOpen st) /\
  (forall i p,
     0 <= i < Z.of_nat (length (Role.resources (editingRole st))) ->
     exists st',
       handlePermissionChange st i p = Some st' /\
       roles st' = roles st /\ selectedRoleId st' = selectedRoleId st /\
       deletingRoleId st' = deletingRoleId st /\
       isResourceDropdownOpen st' = isResourceDropdownOpen st).
Proof.
  repeat split.
  intros i p Hi. destruct (handlePermissionChange_valid st i p Hi) as (res & _ & ->).
  eexists. split; [reflexivity|]. done.
Qed.

(** C4. attachResource(r) appends [{name: r, permissions: []}] after the
    Draft's attachments, which keep their order, and detachResource at the
    resulting last index gives back the Draft as it was. *)
Theorem C4_attach_then_detach st resource :
  let st1 := attachResource st resource in
  let last := Z.of_nat (length (Role.resources (editingRole st1))) - 1 in
  Role.resources (editingRole st1)
  = (Role.resources (editingRole st) ++ [Resource.mk resource []])%list /\
  Role.resources (editingRole (handleRemoveResource st1 last))
  = Role.resources (editingRole st) /\
  editingRole (handleRemoveResource st1 last) = editingRole st.
Proof.
  simpl. split; [done|].
  rewrite length_app. simpl.
  replace (Z.of_nat (length (Role.resources (editingRole st)) + 1) - 1)
    with (Z.of_nat (length (Role.resources (editingRole st)))) by lia.
  rewrite splice1_snoc. split; [done|].
  rewrite withResources_twice. apply withResources_same.
Qed.

(** C6. saveDraft() keeps the number of entities and maps each position
    to the Draft when the entity there has the Draft's identifier and to
    the entity itself otherwise; with no entity of that identifier the
    Collection is returned unchanged.  Draft and Selection are kept. *)
Theorem C6_saveDraft_in_place st :
  let st' := handleSaveChanges st in
  let draft := editingRole st in
  length (roles st') = length (roles st) /\
  (forall (i : nat) role,
     roles st !! i = Some role ->
     roles st' !! i
     = Some (if decide (Role.id role = Role.id draft) then draft else role)) /\
  ((forall role, role ∈ roles st -> Role.id role ≠ Role.id draft) ->
   roles st' = roles st) /\
  editingRole st' = draft /\
  selectedRoleId st' = selectedRoleId st.
Proof.
  simpl. split; [apply length_map|]. split; [|split; [|done]].
  - intros i role Hi. change (map ?f ?l) with (f <$> l).
    by rewrite list_lookup_fmap, Hi.
  - intros Hno. induction (roles st) as [|r rs IH]; [done|]. simpl.
    rewrite decide_False by (apply Hno; left).
    f_equal. apply IH. intros role Hin. apply Hno. by right.
Qed.

End DraftFacts.

Lemma C9_draft_edits_frame_witness :
  exists st',
    handlePermissionChange GroupRoles.init 0 Edit = Some st' /\
    roles st' = GroupRoles.initialRoles /\ selectedRoleId st' = Num 1.
Proof.
  destruct (proj2 (proj2 (C9_draft_edits_frame GroupRoles.init)) 0 Edit)
    as (st' & H1 & H2 & H3 & _).
  - simpl. lia.
  - exists st'. split; [exact H1|]. split; [exact H2 | exact H3].
Defined.

(** The scenario of C6: select entity 1, grant Edit on its first
    attachment, save. *)
Lemma C6_saveDraft_in_place_witness :
  exists st1,
    handlePermissionChange (handleSelectRole Scenario.single (Num 1)) 0 Edit
    = Some st1 /\
    roles (handleSaveChanges st1) !! 0%nat
    = Some (Role.mk (Num 1) "Member" ""
              [Resource.mk "Group Members" [Read; Add; Delete; Edit]]).
Proof.
  eexists. split; [reflexivity|].
  destruct (C6_saveDraft_in_place
              (setEditingRole
                 (Role.mk (Num 1) "Member" ""
                    [Resource.mk "Group Members" [Read; Add; Delete; Edit]])
                 Scenario.single)) as (_ & Hpos & _).
  apply (Hpos 0%nat Scenario.member). reflexivity.
Defined.

(** ** Toggling a permission *)

Lemma includes_true p perms : includes p perms = true <-> p ∈ perms.
Proof. unfold includes. apply bool_decide_eq_true. Qed.

Lemma includes_false p perms : includes p perms = false <-> p ∉ perms.
Proof. unfold includes. apply bool_decide_eq_false. Qed.

Lemma togglePermissionOf_name res p :
  Resource.name (togglePermissionOf res p) = Resource.name res.
Proof. unfold togglePermissionOf. by destruct (includes _ _). Qed.

(** One toggle flips the membership of [p] and of nothing else. *)
Lemma togglePermissionOf_elem res p q :
  q ∈ Resource.permissions (togglePermissionOf res p) <->
  (if decide (q = p) then p ∉ Resource.permissions res
   else q ∈ Resource.permissions res).
Proof.
  unfold togglePermissionOf.
  destruct (includes p (Resource.permissions res)) eqn:Hin; simpl.
  - apply includes_true in Hin. rewrite list_elem_of_filter.
    destruct (decide (q = p)) as [->|Hne]; [tauto | tauto].
  - apply includes_false in Hin. rewrite elem_of_app, list_elem_of_singleton.
    destruct (decide (q = p)) as [->|Hne]; [tauto | tauto].
Qed.

Lemma togglePermissionOf_twice res p q :
  q ∈ Resource.permissions (togglePermissionOf (togglePermissionOf res p) p)
  <-> q ∈ Resource.permissions res.
Proof.
  rewrite togglePermissionOf_elem.
  destruct (decide (q = p)) as [->|Hne].
  - rewrite togglePermissionOf_elem. rewrite decide_True by done.
    destruct (decide (p ∈ Resource.permissions res)); tauto.
  - rewrite togglePermissionOf_elem. by rewrite decide_False.
Qed.

Lemma togglePermissionOf_NoDup res p :
  NoDup (Resource.permissions res) ->
  NoDup (Resource.permissions (togglePermissionOf res p)).
Proof.
  intros Hnd. unfold togglePermissionOf.
  destruct (includes p (Resource.permissions res)) eqn:Hin; simpl.
  - by apply NoDup_filter.
  - apply includes_false in Hin. apply NoDup_app. split; [done|]. split.
    + intros x Hx ->%list_elem_of_singleton. done.
    + apply NoDup_singleton.
Qed.

Section ToggleFacts.
Context {D : Type}.
Implicit Types (st : State D).

(** C3. For a valid index i, togglePermission(i, p) returns, and so does
    a second call; after both the Draft's resource list is the original
    one with the attachment at i replaced by one of the same name whose
    permissions are, as a set, the original ones.  Nothing else of the
    Draft or of the state differs. *)
Theorem C3_togglePermission_twice st i p :
  0 <= i < Z.of_nat (length (Role.resources (editingRole st))) ->
  exists st1 st2 res res2,
    handlePermissionChange st i p = Some st1 /\
    handlePermissionChange st1 i p = Some st2 /\
    Role.resources (editingRole st) !! Z.to_nat i = Some res /\
    Role.resources (editingRole st2)
    = <[Z.to_nat i := res2]> (Role.resources (editingRole st)) /\
    Resource.name res2 = Resource.name res /\
    (forall q, q ∈ Resource.permissions res2 <-> q ∈ Resource.permissions res) /\
    Role.id (editingRole st2) = Role.id (editingRole st) /\
    Role.name (editingRole st2) = Role.name (editingRole st) /\
    Role.description (editingRole st2) = Role.description (editingRole st) /\
    roles st2 = roles st /\
    selectedRoleId st2 = selectedRoleId st /\
    isResourceDropdownOpen st2 = isResourceDropdownOpen st /\
    deletingRoleId st2 = deletingRoleId st.
Proof.
  intros Hi.
  destruct (handlePermissionChange_valid st i p Hi) as (res & Hres & H1).
  set (st1 := setEditingRole _ st) in H1.
  assert (Hi1 : 0 <= i < Z.of_nat (length (Role.resources (editingRole st1)))).
  { subst st1. simpl. by rewrite length_insert. }
  destruct (handlePermissionChange_valid st1 i p Hi1) as (res1 & Hres1 & H2).
  assert (res1 = togglePermissionOf res p) as ->.
  { subst st1. simpl in Hres1.
    rewrite list_lookup_insert_eq in Hres1 by lia. congruence. }
  exists st1, (setEditingRole
                 (withResources (editingRole st1)
                    (<[Z.to_nat i:=togglePermissionOf (togglePermissionOf res p) p]>
                       (Role.resources (editingRole st1)))) st1),
    res, (togglePermissionOf (togglePermissionOf res p) p).
  split; [exact H1|]. split; [exact H2|]. split; [exact Hres|].
  split; [subst st1; simpl; apply list_insert_insert_eq|].
  split; [by rewrite !togglePermissionOf_name|].
  split; [intros q; apply togglePermissionOf_twice|].
  done.
Qed.

End ToggleFacts.

(** Granting Edit on the first attachment of the seed's first role and
    toggling it again gives back the permissions it had. *)
Lemma C3_togglePermission_twice_witness :
  exists st1 st2,
    handlePermissionChange GroupRoles.init 0 Edit = Some st1 /\
    handlePermissionChange st1 0 Edit = Some st2 /\
    Role.resources (editingRole st2)
    = Role.resources (editingRole GroupRoles.init).
Proof.
  destruct (C3_togglePermission_twice GroupRoles.init 0 Edit)
    as (st1 & st2 & res & res2 & H1 & H2 & _).
  - simpl. lia.
  - exists st1, st2. split; [exact H1|]. split; [exact H2|].
    vm_compute in H1. injection H1 as <-.
    vm_compute in H2. injection H2 as <-.
    reflexivity.
Defined.

(** ** Confirmed deletion *)

Section ConfirmFacts.
Context {D : Type}.
Implicit Types (st : State D).

(** C1 (amended). When the pending id is the current Selection,
    confirmDelete() keeps, in order, the entities with another id and
    clears the latch; if some entity remains, Selection becomes the id of
    the first one and Draft becomes that entity; if none remains,
    Selection becomes 0 and Draft is left as it was. *)
Theorem C1_confirmDelete_of_selection st deleting :
  deletingRoleId st = Some deleting ->
  selectedRoleId st = deleting ->
  let st' := confirmDeleteRole st in
  roles st' = filter (fun role => Role.id role ≠ deleting) (roles st) /\
  (forall role,
     role ∈ roles st' <-> role ∈ roles st /\ Role.id role ≠ deleting) /\
  deletingRoleId st' = None /\
  match roles st' with
  | first :: _ =>
      selectedRoleId st' = Role.id first /\ editingRole st' = first
  | [] => selectedRoleId st' = Num 0 /\ editingRole st' = editingRole st
  end.
Proof.
  intros Hdel Hsel. unfold confirmDeleteRole. rewrite Hdel.
  rewrite decide_True by done.
  destruct (filter _ (roles st)) as [|first rest] eqn:Hf; simpl.
  - rewrite <- Hf. split; [done|]. split; [|done].
    intros role. rewrite list_elem_of_filter. tauto.
  - rewrite <- Hf. split; [done|]. split; [|done].
    intros role. rewrite list_elem_of_filter. tauto.
Qed.

End ConfirmFacts.

(** The scenario of C1: ids 1, 2, 3 with 1 selected; after
    requestDelete(1) and confirmDelete() the ids are 2, 3 and 2 is
    selected. *)
Lemma C1_confirmDelete_of_selection_witness :
  let st' := confirmDeleteRole (handleDeleteRole GroupRoles.init (Num 1)) in
  map Role.id (roles st') = [Num 2; Num 3] /\ selectedRoleId st' = Num 2.
Proof.
  destruct (C1_confirmDelete_of_selection
              (handleDeleteRole GroupRoles.init (Num 1)) (Num 1)
              eq_refl eq_refl) as (Hroles & _ & _ & Hsel).
  cbv zeta. split.
  - rewrite Hroles. reflexivity.
  - exact (proj1 Hsel).
Defined.

(** Deleting the only entity while it is selected empties the Collection
    and sets Selection to 0, but the Draft still holds the deleted entity:
    it is not cleared. *)
Lemma C1_draft_not_cleared :
  let st' := confirmDeleteRole (handleDeleteRole Scenario.single (Num 1)) in
  roles st' = [] /\
  selectedRoleId st' = Num 0 /\
  editingRole st' = Scenario.member /\
  ¬ draftCleared (editingRole st').
Proof.
  simpl. split; [reflexivity|]. split; [reflexivity|]. split; [reflexivity|].
  intros [Hname _]. discriminate Hname.
Qed.

(** ** Adding an entity *)

Lemma Math_max_spec (xs : list number) :
  match Math_max xs with
  | NegInfinity => Forall (fun x => x = NegInfinity) xs
  | Num m =>
      Num m ∈ xs /\
      Forall (fun x => match x with NegInfinity => True | Num z => z <= m end) xs
  end.
Proof.
  induction xs as [|x xs IH]; simpl; [constructor|].
  destruct x as [|z]; simpl.
  - destruct (Math_max xs) as [|m].
    + by constructor.
    + destruct IH as [Hin Hle]. split; [by right | by constructor].
  - destruct (Math_max xs) as [|m]; simpl.
    + split; [left|]. constructor; [lia|].
      eapply Forall_impl; [exact IH|]. by intros ? ->.
    + destruct IH as [Hin Hle]. split.
      * destruct (Z.max_spec z m) as [[_ ->]|[_ ->]]; [by right | left].
      * constructor; [lia|]. eapply Forall_impl; [exact Hle|].
        intros [|y]; [done | simpl; lia].
Qed.

(** ** Double arithmetic on integers *)

Lemma roundToDouble_small (z : Z) :
  Z.abs z <= 9007199254740992 -> roundToDouble z = z.
Proof.
  intros Hz. unfold roundToDouble.
  destruct (Z.ltb_spec (Z.abs z) 9007199254740992) as [_|Hge]; [done|].
  assert (z = 9007199254740992 \/ z = - 9007199254740992) as [-> | ->] by lia;
    reflexivity.
Qed.

Lemma plus1_safe (z : Z) :
  - 9007199254740992 <= z < 9007199254740992 -> plus1 (Num z) = Num (z + 1).
Proof. intros Hz. simpl. f_equal. apply roundToDouble_small. lia. Qed.

Lemma roundToDouble_opp (x : Z) : roundToDouble (- x) = - roundToDouble x.
Proof.
  unfold roundToDouble. rewrite Z.abs_opp, Z.sgn_opp.
  destruct (Z.abs x <? 9007199254740992); [done|]. lia.
Qed.

(** From 2^53 on, [x] lies between two neighbouring multiples of [2 ^ e],
    and is rounded to one of them. *)
Lemma roundToDouble_big (a : Z) :
  9007199254740992 <= a ->
  let e := Z.log2 a - 52 in
  exists q r,
    1 <= e /\ a = q * 2 ^ e + r /\ 0 <= r < 2 ^ e /\
    4503599627370496 <= q /\
    (roundToDouble a = q * 2 ^ e \/ roundToDouble a = (q + 1) * 2 ^ e) /\
    (r = 0 -> roundToDouble a = a).
Proof.
  intros Ha e.
  assert (Hlog : 53 <= Z.log2 a).
  { change 53 with (Z.log2 9007199254740992). by apply Z.log2_le_mono. }
  assert (He : 1 <= e) by (unfold e; lia).
  assert (Hpow : 0 < 2 ^ e) by (apply Z.pow_pos_nonneg; lia).
  destruct (Z.log2_spec a) as [Hlo _]; [lia|].
  assert (Hsplit : 2 ^ Z.log2 a = 4503599627370496 * 2 ^ e).
  { replace (Z.log2 a) with (52 + e) by (unfold e; lia).
    rewrite Z.pow_add_r by lia. reflexivity. }
  exists (a / 2 ^ e), (a mod 2 ^ e).
  pose proof (Z.div_mod a (2 ^ e)) as Hdm.
  pose proof (Z.mod_pos_bound a (2 ^ e) Hpow) as Hr.
  split; [done|]. split; [lia|]. split; [done|].
  split; [apply Z.div_le_lower_bound; lia|].
  assert (Hround : roundToDouble a
    = (if a mod 2 ^ e <? 2 ^ (e - 1) then a / 2 ^ e
       else if 2 ^ (e - 1) <? a mod 2 ^ e then a / 2 ^ e + 1
       else if Z.even (a / 2 ^ e) then a / 2 ^ e else a / 2 ^ e + 1)
      * 2 ^ e).
  { unfold roundToDouble. rewrite (Z.abs_eq a) by lia.
    destruct (Z.ltb_spec a 9007199254740992) as [?|_]; [lia|].
    fold e. rewrite Z.sgn_pos by lia. lia. }
  split.
  - rewrite Hround. destruct (_ <? _); [by left|].
    destruct (_ <? _); [by right|]. destruct (Z.even _); [by left | by right].
  - intros Hr0. rewrite Hround. rewrite Hr0.
    assert (0 < 2 ^ (e - 1)) by (apply Z.pow_pos_nonneg; lia).
    destruct (Z.ltb_spec 0 (2 ^ (e - 1))) as [_|?]; [|lia]. lia.
Qed.

(** A double from 2^53 on is a multiple of [2 ^ e] for every [e] up to
    its bit length less 53. *)
Lemma isDouble_multiple (d e : Z) :
  roundToDouble d = d -> 9007199254740992 <= d ->
  0 <= e <= Z.log2 d - 52 ->
  exists k, d = k * 2 ^ e.
Proof.
  intros Hd Hbig He.
  destruct (roundToDouble_big d Hbig) as (q & r & _ & _ & _ & _ & Hround & _).
  assert (Hsplit : 2 ^ (Z.log2 d - 52) = 2 ^ (Z.log2 d - 52 - e) * 2 ^ e).
  { rewrite <- Z.pow_add_r by lia. f_equal. lia. }
  rewrite Hd in Hround. destruct Hround as [Hk|Hk].
  - exists (q * 2 ^ (Z.log2 d - 52 - e)). rewrite Hk at 1. rewrite Hsplit. ring.
  - exists ((q + 1) * 2 ^ (Z.log2 d - 52 - e)). rewrite Hk at 1.
    rewrite Hsplit. ring.
Qed.

(** Rounding does not step over a double. *)
Lemma roundToDouble_le_double (x d : Z) :
  x <= d -> roundToDouble d = d -> roundToDouble x <= d.
Proof.
  intros Hxd Hd.
  destruct (Z.le_gt_cases (Z.abs x) 9007199254740992) as [Hsmall|Hbig].
  { by rewrite roundToDouble_small. }
  destruct (Z.le_gt_cases 0 x) as [Hpos|Hneg].
  - assert (Hx : 9007199254740992 <= x) by lia.
    destruct (roundToDouble_big x Hx) as (q & r & He & Hsplit & Hr & _ & Hround & Hexact).
    set (e := Z.log2 x - 52) in *.
    assert (Hpow : 0 < 2 ^ e) by (apply Z.pow_pos_nonneg; lia).
    destruct (isDouble_multiple d e Hd) as [k Hk]; [lia| |].
    { split; [lia|]. pose proof (Z.log2_le_mono x d Hxd). unfold e. lia. }
    destruct (Z.eq_dec r 0) as [Hr0|Hr0]; [rewrite Hexact by done; lia|].
    assert (q < k).
    { apply (Z.mul_lt_mono_pos_r (2 ^ e)); [done|]. lia. }
    assert ((q + 1) * 2 ^ e <= k * 2 ^ e).
    { apply Z.mul_le_mono_nonneg_r; lia. }
    destruct Hround as [-> | ->]; lia.
  - assert (Ha : 9007199254740992 <= - x) by lia.
    destruct (roundToDouble_big (- x) Ha)
      as (q & r & He & Hsplit & Hr & Hq & Hround & _).
    set (e := Z.log2 (- x) - 52) in *.
    assert (Hpow : 0 < 2 ^ e) by (apply Z.pow_pos_nonneg; lia).
    rewrite roundToDouble_opp in Hround.
    destruct (Z.le_gt_cases (roundToDouble x) d) as [?|Habs]; [done|exfalso].
    assert (Hlow : q * 2 ^ e < - d) by (destruct Hround; lia).
    assert (H52 : 2 ^ (52 + e) <= q * 2 ^ e).
    { rewrite Z.pow_add_r by lia. change (2 ^ 52) with 4503599627370496.
      apply Z.mul_le_mono_nonneg_r; lia. }
    assert (Hlogd : 52 + e <= Z.log2 (- d)).
    { rewrite <- (Z.log2_pow2 (52 + e)) by lia. apply Z.log2_le_mono. lia. }
    assert (Hbigd : 9007199254740992 <= - d).
    { assert (2 ^ 53 <= 2 ^ (52 + e)) by (apply Z.pow_le_mono_r; lia).
      change (2 ^ 53) with 9007199254740992 in *. lia. }
    destruct (isDouble_multiple (- d) e) as [k Hk]; [|done|lia|].
    { rewrite roundToDouble_opp. by rewrite Hd. }
    assert (q < k).
    { apply (Z.mul_lt_mono_pos_r (2 ^ e)); [done|]. lia. }
    assert ((q + 1) * 2 ^ e <= k * 2 ^ e).
    { apply Z.mul_le_mono_nonneg_r; lia. }
    lia.
Qed.

(** [+ 1] around the largest safe integer: exact up to 2^53, then the sum
    is rounded to a double, ties to the even significand. *)
Example plus1_around_limit :
  plus1 (Num 9007199254740991) = Num 9007199254740992 /\
  plus1 (Num 9007199254740992) = Num 9007199254740992 /\
  plus1 (Num 9007199254740994) = Num 9007199254740996 /\
  plus1 (Num 18014398509481984) = Num 18014398509481984 /\
  plus1 (Num (- 9007199254740992)) = Num (- 9007199254740991) /\
  plus1 (Num (- 9007199254740994)) = Num (- 9007199254740992).
Proof. vm_compute. repeat split. Qed.

(** Strings of numbers: plain digits up to 2^53, the shortest digits that
    read back as the double above it, and exponent form from 1e21. *)
Example number_toString_forms :
  map (fun z => number_toString (Num z))
    [0; 4; -12; 9007199254740992; 2 ^ 63; 2 ^ 64; 10 ^ 20; 10 ^ 21; 2 ^ 70;
     2 ^ 100; 2 ^ 1023]
  = ["0"; "4"; "-12"; "9007199254740992"; "9223372036854776000";
     "18446744073709552000"; "100000000000000000000"; "1e+21";
     "1.1805916207174113e+21"; "1.2676506002282294e+30";
     "8.98846567431158e+307"].
Proof. vm_compute. reflexivity. Qed.

Section AddFacts.
Context {D : Type}.
Variable newDescription : D.
Variable newNamePrefix : string.
Implicit Types (st : State D).

(** On a Collection with at least one integer id, all of them from -2^53
    to 2^53 - 1, [handleAddRole] appends an entity whose id is the largest
    id plus one, above every id present, named after it, with no
    resources, and selects and opens it. *)
Lemma handleAddRole_fresh st :
  (exists role z, role ∈ roles st /\ Role.id role = Num z) ->
  (forall role z,
     role ∈ roles st -> Role.id role = Num z ->
     - 9007199254740992 <= z < 9007199254740992) ->
  let st' := handleAddRole newDescription newNamePrefix st in
  exists newId,
    let newRole :=
      Role.mk (Num newId)
        (String.append newNamePrefix (number_toString (Num newId)))
        newDescription [] in
    roles st' = (roles st ++ [newRole])%list /\
    (forall role, role ∈ roles st -> number_lt (Role.id role) (Num newId)) /\
    selectedRoleId st' = Num newId /\
    editingRole st' = newRole.
Proof.
  intros (role0 & z0 & Hin0 & Hid0) Hsafe. unfold handleAddRole. simpl.
  pose proof (Math_max_spec (map Role.id (roles st))) as Hmax.
  destruct (Math_max (map Role.id (roles st))) as [|m].
  - exfalso. rewrite Forall_forall in Hmax.
    assert (Num z0 = NegInfinity) as Habs; [|discriminate Habs].
    apply Hmax. rewrite <- Hid0.
    apply list_elem_of_fmap. by exists role0.
  - destruct Hmax as [Hm Hle].
    apply list_elem_of_fmap in Hm as (rm & Hidm & Hinm).
    rewrite plus1_safe by (by apply (Hsafe rm)).
    exists (m + 1). simpl.
    split; [done|]. split; [|done].
    intros role Hin. rewrite Forall_forall in Hle.
    assert (Hmem : Role.id role ∈ map Role.id (roles st)).
    { apply list_elem_of_fmap. by exists role. }
    apply Hle in Hmem.
    destruct (Role.id role) as [|z]; simpl in *; [done | lia].
Qed.

(** The handler on an empty Collection, a state in which the component
    does not call it (the heading throws first): [Math.max()] of no
    argument is [-Infinity], and so is [-Infinity + 1]. *)
Lemma handleAddRole_on_empty
    (selected : number) (draft : Role.t D) (open : bool)
    (pending : option number) :
  let st := mkState [] selected draft open pending in
  let st1 := handleAddRole newDescription newNamePrefix st in
  let st2 := handleAddRole newDescription newNamePrefix st1 in
  let newRole :=
    Role.mk NegInfinity (String.append newNamePrefix "-Infinity")
      newDescription [] in
  roles st1 = [newRole] /\
  selectedRoleId st1 = NegInfinity /\
  editingRole st1 = newRole /\
  Role.id newRole ≠ Num 1 /\
  roles st2 = [newRole; newRole] /\
  ¬ number_lt (Role.id newRole) (selectedRoleId st2).
Proof.
  simpl. repeat split; try done. intros [].
Qed.

(** C2 (amended). On a non-empty Collection whose ids are safe integers,
    addEntity() appends, after the entities already there, an entity
    whose id is the largest id plus one, strictly above every id of the
    Collection; it is named by the editor's prefix followed by that id,
    has the editor's empty description and no resources, and it becomes
    the Selection and the Draft. *)
Theorem C2_addEntity_fresh_id st :
  roles st ≠ [] ->
  (forall role, role ∈ roles st -> isSafeInteger (Role.id role)) ->
  let st' := handleAddRole newDescription newNamePrefix st in
  exists largest,
    Num largest ∈ map Role.id (roles st) /\
    (forall role, role ∈ roles st ->
                  number_lt (Role.id role) (Num (largest + 1))) /\
    let newRole :=
      Role.mk (Num (largest + 1))
        (String.append newNamePrefix (number_toString (Num (largest + 1))))
        newDescription [] in
    roles st' = (roles st ++ [newRole])%list /\
    selectedRoleId st' = Num (largest + 1) /\
    editingRole st' = newRole.
Proof.
  intros Hne Hsafe. unfold handleAddRole. simpl.
  pose proof (Math_max_spec (map Role.id (roles st))) as Hmax.
  destruct (Math_max (map Role.id (roles st))) as [|m].
  - exfalso. destruct (roles st) as [|r0 rs]; [done|].
    apply Forall_cons in Hmax as [Hr0 _].
    specialize (Hsafe r0 ltac:(left)). by rewrite Hr0 in Hsafe.
  - destruct Hmax as [Hm Hle]. exists m. split; [exact Hm|].
    apply list_elem_of_fmap in Hm as (rm & Hidm & Hinm).
    pose proof (Hsafe rm Hinm) as Hsm. rewrite <- Hidm in Hsm. simpl in Hsm.
    rewrite plus1_safe by lia. split; [|done].
    intros role Hin. rewrite Forall_forall in Hle.
    assert (Hmem : Role.id role ∈ map Role.id (roles st)).
    { apply list_elem_of_fmap. by exists role. }
    apply Hle in Hmem.
    destruct (Role.id role) as [|z]; simpl in *; [done | lia].
Qed.

End AddFacts.

(** The seed's next id is 4, and the new role is called "New 4". *)
Lemma handleAddRole_fresh_witness :
  exists newId,
    roles (GroupRoles.handleAddRole GroupRoles.init)
    = (roles GroupRoles.init ++
       [Role.mk (Num newId) (String.append "New " (number_toString (Num newId)))
          "" []])%list.
Proof.
  destruct (handleAddRole_fresh "" "New " GroupRoles.init) as (n & H & _).
  - exists (Role.mk (Num 1) "Member" "Basic access for regular users"
      [ Resource.mk "Group Members" [Read; Add; Delete];
        Resource.mk "Forum Categories" [Read; Add; Modify; Delete; Post];
        Resource.mk "Category1" [Edit; Delete; Post];
        Resource.mk "Category2" [Post] ]), 1.
    split; [by_compute | reflexivity].
  - intros role z Hin Hid. simpl in Hin.
    repeat (apply elem_of_cons in Hin as [->|Hin];
            [simpl in Hid; injection Hid as <-; lia|]).
    by apply elem_of_nil in Hin.
  - exists n. exact H.
Defined.

(** On the Group Roles seed the new role has the id 4, is named "New 4"
    and is selected; on the Security Rules seed the new rule has the id 3
    and is named "New Rule 3". *)
Lemma C2_addEntity_fresh_id_witness :
  (selectedRoleId (GroupRoles.handleAddRole GroupRoles.init) = Num 4 /\
   editingRole (GroupRoles.handleAddRole GroupRoles.init)
   = Role.mk (Num 4) "New 4" "" []) /\
  editingRole (SecurityRules.handleAddRule SecurityRules.init)
  = Role.mk (Num 3) "New Rule 3" tt [].
Proof.
  split.
  - destruct (C2_addEntity_fresh_id "" "New " GroupRoles.init)
      as (m & Hm & _ & _ & Hsel & Hdraft).
    + discriminate.
    + intros role Hin. simpl in Hin.
      repeat (apply elem_of_cons in Hin as [->|Hin]; [simpl; lia|]).
      by apply elem_of_nil in Hin.
    + unfold GroupRoles.handleAddRole. rewrite Hsel, Hdraft.
      assert (m = 3) as ->.
      { assert (H4 : selectedRoleId (handleAddRole "" "New " GroupRoles.init)
                     = Num 4) by (vm_compute; reflexivity).
        rewrite H4 in Hsel. injection Hsel as Hsel. lia. }
      split; [reflexivity | vm_compute; reflexivity].
  - destruct (C2_addEntity_fresh_id tt "New Rule " SecurityRules.init)
      as (m & Hm & _ & _ & Hsel & Hdraft).
    + discriminate.
    + intros role Hin. simpl in Hin.
      repeat (apply elem_of_cons in Hin as [->|Hin]; [simpl; lia|]).
      by apply elem_of_nil in Hin.
    + unfold SecurityRules.handleAddRule. rewrite Hdraft.
      assert (m = 2) as ->.
      { assert (H3 : selectedRoleId
                       (handleAddRole tt "New Rule " SecurityRules.init)
                     = Num 3) by (vm_compute; reflexivity).
        rewrite H3 in Hsel. injection Hsel as Hsel. lia. }
      vm_compute. reflexivity.
Defined.

(** In the Group Roles editor the entity added to an empty Collection is
    named "New -Infinity". *)
Example GroupRoles_add_to_empty :
  roles (GroupRoles.handleAddRole Scenario.emptied)
  = [Role.mk NegInfinity "New -Infinity" "" []].
Proof. reflexivity. Qed.

(** In the Security Rules editor it is named "New Rule -Infinity". *)
Example SecurityRules_add_to_empty :
  roles (SecurityRules.handleAddRule
           (mkState [] (Num 0)
              (Role.mk (Num 1) "Default Rule" tt []) false None))
  = [Role.mk NegInfinity "New Rule -Infinity" tt []].
Proof. reflexivity. Qed.

(** ** Well-formed attachments are kept by every operation *)

Lemma wfResources_nil : wfResources [].
Proof. split; [apply NoDup_nil_2 | constructor]. Qed.

Lemma wfResources_delete rs i : wfResources rs -> wfResources (delete i rs).
Proof.
  intros [Hnames Hperms]. split.
  - change (map ?f ?l) with (f <$> l) in *. rewrite list_fmap_delete.
    eapply sublist_NoDup; [done | apply sublist_delete].
  - by apply Forall_delete.
Qed.

Lemma wfResources_splice1 rs index :
  wfResources rs -> wfResources (splice1 rs index).
Proof. apply wfResources_delete. Qed.

Lemma wfResources_toggle rs (i : nat) res p :
  rs !! i = Some res ->
  wfResources rs -> wfResources (<[i := togglePermissionOf res p]> rs).
Proof.
  intros Hres [Hnames Hperms]. split.
  - change (map ?f ?l) with (f <$> l) in *. rewrite list_fmap_insert.
    rewrite togglePermissionOf_name.
    rewrite list_insert_id; [done|]. by rewrite list_lookup_fmap, Hres.
  - apply Forall_insert; [done|]. apply togglePermissionOf_NoDup.
    by eapply (Forall_lookup_1 _ _ _ _ Hperms).
Qed.

Lemma wfResources_attach rs resource :
  existsb (fun r => bool_decide (Resource.name r = resource)) rs = false ->
  wfResources rs -> wfResources (rs ++ [Resource.mk resource []]).
Proof.
  intros Hnew [Hnames Hperms]. split.
  - rewrite map_app. simpl. apply NoDup_app. split; [done|]. split.
    + intros x Hx ->%list_elem_of_singleton.
      apply list_elem_of_fmap in Hx as (r & Hname & Hin).
      assert (existsb (fun r => bool_decide (Resource.name r = resource)) rs
              = true) as Habs; [|congruence].
      apply existsb_exists. exists r. split; [by apply list_elem_of_In|].
      by apply bool_decide_eq_true.
    + apply NoDup_singleton.
  - apply Forall_app. split; [done|]. constructor; [|constructor].
    simpl. apply NoDup_nil_2.
Qed.

Section Invariant.
Context {D : Type}.
Variable newDescription : D.
Variable newNamePrefix : string.
Implicit Types (st : State D) (ev : Event D).

Lemma handleSelectRole_wf st roleId :
  wfState st -> wfState (handleSelectRole st roleId).
Proof.
  intros [Hroles Hdraft]. unfold handleSelectRole.
  destruct (findRole (roles st) roleId) as [role|] eqn:Hfind; [|done].
  split; [done|]. simpl.
  apply findRole_Some in Hfind as [Hin _].
  by eapply (proj1 (Forall_forall _ _) Hroles).
Qed.

Lemma handlePermissionChange_wf st i p st' :
  wfState st -> handlePermissionChange st i p = Some st' -> wfState st'.
Proof.
  intros [Hroles Hdraft]. unfold handlePermissionChange.
  destruct (js_index _ i) as [res|] eqn:Hres; [|done].
  intros [= <-]. split; [done|]. simpl.
  apply js_index_Some in Hres as [_ Hres].
  by apply wfResources_toggle.
Qed.

Lemma handleSaveChanges_wf st : wfState st -> wfState (handleSaveChanges st).
Proof.
  intros [Hroles Hdraft]. split; [|done]. simpl.
  change (map ?f ?l) with (f <$> l). apply Forall_fmap.
  eapply Forall_impl; [exact Hroles|]. intros role Hrole. simpl.
  by destruct (decide _).
Qed.

Lemma handleAddRole_wf st :
  wfState st -> wfState (handleAddRole newDescription newNamePrefix st).
Proof.
  intros [Hroles Hdraft]. split; simpl.
  - apply Forall_app. split; [done|]. constructor; [|constructor].
    apply wfResources_nil.
  - apply wfResources_nil.
Qed.

Lemma confirmDeleteRole_wf st : wfState st -> wfState (confirmDeleteRole st).
Proof.
  intros [Hroles Hdraft]. unfold confirmDeleteRole.
  destruct (deletingRoleId st) as [deleting|]; [|done].
  assert (Hkept : Forall wfRole
            (filter (fun role => Role.id role ≠ deleting) (roles st))).
  { eapply Forall_forall. intros role [_ Hin]%list_elem_of_filter.
    by eapply (proj1 (Forall_forall _ _) Hroles). }
  destruct (decide (selectedRoleId st = deleting)); [|by split].
  destruct (filter _ (roles st)) as [|first rest] eqn:Hf; [by split|].
  split; [done|]. simpl. by apply Forall_cons in Hkept as [? _].
Qed.

Lemma handleRemoveResource_wf st index :
  wfState st -> wfState (handleRemoveResource st index).
Proof.
  intros [Hroles Hdraft]. split; [done|]. by apply wfResources_splice1.
Qed.

Lemma attachResource_wf st resource :
  hasResource st resource = false ->
  wfState st -> wfState (attachResource st resource).
Proof.
  intros Hnew [Hroles Hdraft]. split; [done|]. by apply wfResources_attach.
Qed.

(** Every entry the dropdown offers is absent from the draft. *)
Lemma dropdownResources_absent st resource :
  resource ∈ dropdownResources st ->
  resource ∈ allResources /\ hasResource st resource = false.
Proof.
  unfold dropdownResources. intros Hin%list_elem_of_In.
  apply filter_In in Hin as [Hin Hneg]. split; [by apply list_elem_of_In|].
  by apply negb_true_iff.
Qed.

(** Each operation keeps the attachments well formed. *)
Lemma step_wf st ev st' :
  wfState st -> step newDescription newNamePrefix st ev = Some st' ->
  wfState st'.
Proof.
  intros Hwf. destruct ev; simpl.
  - intros [= <-]. by apply handleSelectRole_wf.
  - intros [= <-]. done.
  - intros [= <-]. done.
  - by apply handlePermissionChange_wf.
  - intros [= <-]. by apply handleSaveChanges_wf.
  - intros [= <-]. by apply handleAddRole_wf.
  - intros [= <-]. done.
  - intros [= <-]. by apply confirmDeleteRole_wf.
  - intros [= <-]. done.
  - intros [= <-]. by apply handleRemoveResource_wf.
  - destruct (hasResource st resource) eqn:Hnew; [done|].
    intros [= <-]. by apply attachResource_wf.
  - intros [= <-]. done.
  - intros [= <-]. unfold handleClickOutside.
    by destruct (isResourceDropdownOpen st).
Qed.

Lemma reachable_wf st0 st :
  wfState st0 -> reachable newDescription newNamePrefix st0 st -> wfState st.
Proof.
  intros Hwf0 Hreach. induction Hreach as [|st ev st' _ IH Hstep]; [done|].
  by eapply step_wf.
Qed.

End Invariant.

Lemma GroupRoles_init_wf : wfState GroupRoles.init.
Proof.
  split.
  - apply Forall_forall. intros role Hin. split; revert role Hin.
    + apply Forall_forall. by_compute.
    + apply Forall_forall. by_compute.
  - split; by_compute.
Qed.

Lemma SecurityRules_init_wf : wfState SecurityRules.init.
Proof.
  split.
  - apply Forall_forall. intros role Hin. split; revert role Hin.
    + apply Forall_forall. by_compute.
    + apply Forall_forall. by_compute.
  - split; by_compute.
Qed.

Lemma GroupRoles_initialState :
  initialState GroupRoles.initialRoles = Some GroupRoles.init.
Proof. reflexivity. Qed.

Lemma SecurityRules_initialState :
  initialState SecurityRules.initialRules = Some SecurityRules.init.
Proof. reflexivity. Qed.

(** Every permission is one of the fixed enumeration. *)
Lemma allPermissions_complete (p : Permission) : p ∈ allPermissions.
Proof. destruct p; by_compute. Qed.

(** C8. In every state that either editor reaches from its seed, every
    entity of the Collection and the Draft have pairwise distinct resource
    names and no permission twice in an attachment; and each operation
    that returns keeps this, in both editors, from any state that has
    it. *)
Theorem C8_attachments_well_formed :
  (forall st, reachable "" "New " GroupRoles.init st -> wfState st) /\
  (forall st, reachable tt "New Rule " SecurityRules.init st -> wfState st) /\
  (forall st ev st',
     wfState st -> GroupRoles.step st ev = Some st' -> wfState st') /\
  (forall st ev st',
     wfState st -> SecurityRules.step st ev = Some st' -> wfState st').
Proof.
  split; [|split; [|split]].
  - intros st. apply reachable_wf, GroupRoles_init_wf.
  - intros st. apply reachable_wf, SecurityRules_init_wf.
  - intros st ev st'. apply step_wf.
  - intros st ev st'. apply step_wf.
Qed.

(** The state after attaching "Audit Logs" to the draft of the first seed
    role is reached, hence well formed. *)
Lemma C8_attachments_well_formed_witness :
  exists st,
    GroupRoles.step GroupRoles.init (AttachResource "Audit Logs") = Some st /\
    wfState st.
Proof.
  eexists. split; [reflexivity|].
  apply (proj1 C8_attachments_well_formed).
  eapply (reachable_step _ _ _ _ (AttachResource "Audit Logs"));
    [apply reachable_init | reflexivity].
Defined.

(** ** Identifiers after adding to an empty Collection *)

(** From the emptied Collection: add an entity, attach a resource to it,
    save, add again.  The Collection then holds two entities under the id
    [-Infinity] with different contents, and selecting that id opens the
    first of them. *)
Example duplicate_ids_after_empty_add :
  exists st,
    Scenario.run Scenario.emptied
      [AddEntity; AttachResource "Audit Logs"; SaveDraft; AddEntity]
    = Some st /\
    roles st
    = [ Role.mk NegInfinity "New -Infinity" "" [Resource.mk "Audit Logs" []];
        Role.mk NegInfinity "New -Infinity" "" [] ] /\
    editingRole (handleSelectRole st NegInfinity)
    = Role.mk NegInfinity "New -Infinity" "" [Resource.mk "Audit Logs" []].
Proof. eexists. split; [reflexivity|]. split; reflexivity. Qed.

(** The emptied Collection is what deleting the only entity leaves. *)
Example emptied_is_reached :
  Scenario.run Scenario.single [RequestDelete (Num 1); ConfirmDelete]
  = Some Scenario.emptied.
Proof. reflexivity. Qed.

(** * Further properties of the handlers *)

(** ** One toggle, as the table draws it *)

Section ToggleOnce.
Context {D : Type}.
Implicit Types (st : State D).

(** X1. For a valid index, [handlePermissionChange] returns the state in
    which only the Draft differs, and of the Draft only the attachment at
    that index, which keeps its name; drawn with [isEnabled], the toggled
    permission is flipped and every other permission is drawn as
    before. *)
Theorem handlePermissionChange_flips st i p :
  0 <= i < Z.of_nat (length (Role.resources (editingRole st))) ->
  exists st' res res',
    handlePermissionChange st i p = Some st' /\
    Role.resources (editingRole st) !! Z.to_nat i = Some res /\
    st' = mkState (roles st) (selectedRoleId st)
            (Role.mk (Role.id (editingRole st)) (Role.name (editingRole st))
               (Role.description (editingRole st))
               (<[Z.to_nat i := res']> (Role.resources (editingRole st))))
            (isResourceDropdownOpen st) (deletingRoleId st) /\
    Resource.name res' = Resource.name res /\
    (forall q,
       isEnabled res' q
       = if decide (q = p) then negb (isEnabled res p) else isEnabled res q).
Proof.
  intros Hi.
  destruct (handlePermissionChange_valid st i p Hi) as (res & Hres & H1).
  eexists _, res, (togglePermissionOf res p).
  split; [exact H1|]. split; [exact Hres|]. split; [reflexivity|].
  split; [apply togglePermissionOf_name|].
  intros q. unfold isEnabled, includes.
  pose proof (togglePermissionOf_elem res p q) as Hq.
  destruct (decide (q = p)) as [->|Hne].
  - destruct (decide (p ∈ Resource.permissions res)) as [Hin|Hin].
    + rewrite (bool_decide_eq_true_2 _ Hin). simpl.
      apply bool_decide_eq_false_2. tauto.
    + rewrite (bool_decide_eq_false_2 _ Hin). simpl.
      apply bool_decide_eq_true_2. tauto.
  - apply bool_decide_ext. done.
Qed.

(** X2. For an index outside [0 .. length-1], [handlePermissionChange]
    throws: it sets no state. *)
Theorem handlePermissionChange_out_of_range st i p :
  i < 0 \/ Z.of_nat (length (Role.resources (editingRole st))) <= i ->
  handlePermissionChange st i p = None.
Proof. intros Hi. apply handlePermissionChange_invalid. lia. Qed.

End ToggleOnce.

Lemma handlePermissionChange_flips_witness :
  exists st',
    handlePermissionChange GroupRoles.init 0 Edit = Some st' /\
    (Resource.permissions <$> Role.resources (editingRole st') !! 0%nat)
    = Some [Read; Add; Delete; Edit].
Proof.
  destruct (handlePermissionChange_flips GroupRoles.init 0 Edit)
    as (st' & res & res' & H1 & _).
  - simpl. lia.
  - exists st'. split; [exact H1|].
    vm_compute in H1. injection H1 as <-. reflexivity.
Defined.

Lemma handlePermissionChange_out_of_range_witness :
  handlePermissionChange GroupRoles.init 4 Read = None /\
  handlePermissionChange GroupRoles.init (-1) Read = None.
Proof.
  split; apply handlePermissionChange_out_of_range; simpl; lia.
Defined.

(** ** Detaching a resource *)

Lemma delete_past_end {A} (l : list A) (i : nat) :
  (length l <= i)%nat -> delete i l = l.
Proof.
  intros Hi. rewrite delete_take_drop.
  rewrite take_ge by lia. rewrite drop_ge by lia. apply app_nil_r.
Qed.

Section DetachFacts.
Context {D : Type}.
Implicit Types (st : State D).

(** X3. For a valid index, [handleRemoveResource] shortens the draft's
    resource list by one: the attachments before the index stay in place
    and the later ones move down by one.  Nothing else of the state
    changes. *)
Theorem handleRemoveResource_valid st index :
  0 <= index < Z.of_nat (length (Role.resources (editingRole st))) ->
  let rs := Role.resources (editingRole st) in
  let st' := handleRemoveResource st index in
  let rs' := Role.resources (editingRole st') in
  S (length rs') = length rs /\
  (forall j : nat,
     rs' !! j = if decide (j < Z.to_nat index)%nat then rs !! j
                else rs !! S j) /\
  st' = setEditingRole (withResources (editingRole st) rs') st.
Proof.
  intros Hi. cbv zeta. split; [|split; [|reflexivity]].
  all: simpl; unfold splice1.
  all: destruct (Z.ltb_spec index 0) as [?|_]; [lia|].
  all: rewrite Z.min_l by lia.
  - rewrite length_delete by (apply lookup_lt_is_Some; lia).
    assert (Z.to_nat index < length (Role.resources (editingRole st)))%nat
      by lia.
    lia.
  - intros j. destruct (decide (j < Z.to_nat index)%nat).
    + by apply list_lookup_delete_lt.
    + apply list_lookup_delete_ge. lia.
Qed.

(** X4. Outside the valid range [splice] does not fail: an index at or
    past the end leaves the draft as it is, an index [-k] with
    [1 <= k <= length] detaches the k-th attachment from the end, and a
    smaller index detaches the first one. *)
Theorem handleRemoveResource_out_of_range st index :
  let len := Z.of_nat (length (Role.resources (editingRole st))) in
  (len <= index -> handleRemoveResource st index = st) /\
  (- len <= index < 0 ->
   handleRemoveResource st index = handleRemoveResource st (len + index)) /\
  (index < - len ->
   handleRemoveResource st index = handleRemoveResource st 0).
Proof.
  simpl. unfold handleRemoveResource, splice1. split; [|split]; intros Hi.
  - destruct (Z.ltb_spec index 0) as [?|_]; [lia|].
    rewrite Z.min_r by lia. rewrite Nat2Z.id.
    rewrite delete_past_end by lia.
    rewrite withResources_same. by destruct st.
  - destruct (Z.ltb_spec index 0) as [_|?]; [|lia].
    destruct (Z.ltb_spec (Z.of_nat (length (Role.resources (editingRole st)))
                          + index) 0) as [?|_]; [lia|].
    rewrite Z.max_l by lia. rewrite Z.min_l by lia. done.
  - destruct (Z.ltb_spec index 0) as [_|?]; [|lia].
    rewrite Z.max_r by lia. simpl. rewrite Z.min_l by lia. done.
Qed.

End DetachFacts.

Lemma handleRemoveResource_valid_witness :
  Resource.name <$> Role.resources
                      (editingRole (handleRemoveResource GroupRoles.init 1))
  = ["Group Members"; "Category1"; "Category2"].
Proof.
  destruct (handleRemoveResource_valid GroupRoles.init 1) as (_ & _ & ->).
  - simpl. lia.
  - reflexivity.
Defined.

Lemma handleRemoveResource_out_of_range_witness :
  handleRemoveResource GroupRoles.init 4 = GroupRoles.init /\
  handleRemoveResource GroupRoles.init (-1)
  = handleRemoveResource GroupRoles.init 3.
Proof.
  destruct (handleRemoveResource_out_of_range GroupRoles.init 4)
    as (Hpast & _).
  destruct (handleRemoveResource_out_of_range GroupRoles.init (-1))
    as (_ & Hneg & _).
  split; [apply Hpast; simpl; lia | apply Hneg; simpl; lia].
Defined.

(** ** The "add resource" dropdown *)

Lemma hasResource_false {D} (st : State D) resource :
  hasResource st resource = false <->
  (forall r, r ∈ Role.resources (editingRole st) -> Resource.name r ≠ resource).
Proof.
  unfold hasResource. split.
  - intros Hno r Hin Hname.
    assert (existsb (fun r => bool_decide (Resource.name r = resource))
              (Role.resources (editingRole st)) = true) as Habs; [|congruence].
    apply existsb_exists. exists r. split; [by apply list_elem_of_In|].
    by apply bool_decide_eq_true.
  - intros Hno. apply not_true_is_false. intros Hex.
    apply existsb_exists in Hex as (r & Hin & Hname).
    apply (Hno r); [by apply list_elem_of_In | by apply bool_decide_eq_true in Hname].
Qed.

Section DropdownFacts.
Context {D : Type}.
Implicit Types (st : State D).

Lemma dropdownResources_elem st resource :
  resource ∈ dropdownResources st <->
  resource ∈ allResources /\
  (forall r, r ∈ Role.resources (editingRole st) -> Resource.name r ≠ resource).
Proof.
  unfold dropdownResources. rewrite <- hasResource_false.
  rewrite list_elem_of_In, filter_In, <- list_elem_of_In, negb_true_iff. done.
Qed.

(** X5. The dropdown lists exactly the catalogued resources that the
    draft has no attachment for, each once and in catalogue order. *)
Theorem dropdownResources_spec st :
  (forall resource,
     resource ∈ dropdownResources st <->
     resource ∈ allResources /\
     (forall r, r ∈ Role.resources (editingRole st) ->
                Resource.name r ≠ resource)) /\
  dropdownResources st `sublist_of` allResources /\
  NoDup (dropdownResources st).
Proof.
  split; [apply dropdownResources_elem|].
  assert (Hsub : dropdownResources st `sublist_of` allResources).
  { unfold dropdownResources. generalize allResources. intros l.
    induction l as [|x l IH]; simpl; [constructor|].
    destruct (negb (hasResource st x)); by constructor. }
  split; [done|]. eapply sublist_NoDup; [|exact Hsub]. by_compute.
Qed.

(** X6. Attaching a resource takes it, and nothing else, off the
    dropdown. *)
Theorem dropdownResources_after_attach st resource other :
  other ∈ dropdownResources (attachResource st resource) <->
  other ∈ dropdownResources st /\ other ≠ resource.
Proof.
  rewrite !dropdownResources_elem. simpl. split.
  - intros [Hcat Hno]. split; [split; [done|]|].
    + intros r Hin. apply Hno. apply elem_of_app. by left.
    + intros ->. apply (Hno (Resource.mk resource [])); [|done].
      apply elem_of_app. right. by apply list_elem_of_singleton.
  - intros [[Hcat Hno] Hne]. split; [done|].
    intros r [Hin| ->%list_elem_of_singleton]%elem_of_app; [by apply Hno|].
    simpl. congruence.
Qed.

(** X7. When the draft's resource names are pairwise distinct, detaching
    an attachment of a catalogued resource puts that resource back on the
    dropdown. *)
Theorem dropdownResources_after_detach st index res :
  NoDup (map Resource.name (Role.resources (editingRole st))) ->
  js_index (Role.resources (editingRole st)) index = Some res ->
  Resource.name res ∈ allResources ->
  Resource.name res ∈ dropdownResources (handleRemoveResource st index).
Proof.
  intros Hnd Hres Hcat. apply dropdownResources_elem. split; [done|].
  apply js_index_Some in Hres as [H0 Hres].
  assert (Hlt : (Z.to_nat index < length (Role.resources (editingRole st)))%nat)
    by (by eapply lookup_lt_Some).
  simpl. unfold splice1.
  destruct (Z.ltb_spec index 0) as [?|_]; [lia|].
  rewrite Z.min_l by lia.
  set (i := Z.to_nat index) in *.
  rewrite delete_take_drop. intros r Hin Hname.
  rewrite <- (take_drop_middle _ _ _ Hres) in Hnd.
  rewrite map_app in Hnd. simpl in Hnd.
  apply NoDup_app in Hnd as (_ & Hdisj & Hnd).
  apply NoDup_cons in Hnd as [Hnotin _].
  apply elem_of_app in Hin as [Hin|Hin].
  - apply (Hdisj (Resource.name r)).
    + apply list_elem_of_fmap. by exists r.
    + rewrite Hname. left.
  - apply Hnotin. rewrite <- Hname. apply list_elem_of_fmap. by exists r.
Qed.

End DropdownFacts.

Lemma dropdownResources_after_detach_witness :
  "Forum Categories" ∈ dropdownResources (handleRemoveResource GroupRoles.init 1).
Proof.
  apply (dropdownResources_after_detach GroupRoles.init 1
           (Resource.mk "Forum Categories" [Read; Add; Modify; Delete; Post])).
  - by_compute.
  - reflexivity.
  - by_compute.
Defined.

(** ** The entity shown in the heading *)

Section HeadingFacts.
Context {D : Type}.
Implicit Types (st : State D).

(** X8. [selectedRole] is undefined exactly when the Collection is empty;
    otherwise it is the first entity carrying the Selection, or the first
    entity of the Collection when no entity carries it. *)
Theorem selectedRole_spec st :
  (selectedRole st = None <-> roles st = []) /\
  (forall role,
     selectedRole st = Some role ->
     role ∈ roles st /\
     (Role.id role = selectedRoleId st \/
      ((forall r, r ∈ roles st -> Role.id r ≠ selectedRoleId st) /\
       roles st !! 0%nat = Some role))).
Proof.
  unfold selectedRole.
  destruct (findRole (roles st) (selectedRoleId st)) as [found|] eqn:Hfind.
  - apply findRole_Some in Hfind as [Hin Hid]. split.
    + split; [done|]. intros Hnil. rewrite Hnil in Hin.
      by apply elem_of_nil in Hin.
    + intros role [= <-]. split; [done | by left].
  - pose proof (proj1 (findRole_None _ _) Hfind) as Hno. split.
    + destruct (roles st); [done|]. split; done.
    + intros role Hrole. apply js_index_Some in Hrole as [_ Hrole].
      split; [by eapply list_elem_of_lookup_2|]. right. done.
Qed.

End HeadingFacts.

Lemma selectedRole_spec_witness :
  selectedRole
    (confirmDeleteRole (handleDeleteRole Scenario.single (Num 1))) = None.
Proof.
  apply (proj1 (selectedRole_spec _)). reflexivity.
Defined.

(** ** Saving *)

Section SaveFacts.
Context {D : Type}.
Implicit Types (st : State D) (rs : list (Role.t D)) (draft : Role.t D).

Lemma save_map_ids rs draft :
  map Role.id
    (map (fun role =>
            if decide (Role.id role = Role.id draft) then draft else role) rs)
  = map Role.id rs.
Proof.
  induction rs as [|r rs IH]; [done|]. simpl. rewrite IH.
  destruct (decide (Role.id r = Role.id draft)) as [->|]; done.
Qed.

Lemma findRole_saved rs draft :
  Role.id draft ∈ map Role.id rs ->
  findRole
    (map (fun role =>
            if decide (Role.id role = Role.id draft) then draft else role) rs)
    (Role.id draft)
  = Some draft.
Proof.
  unfold findRole. induction rs as [|r rs IH]; simpl.
  - by intros ?%elem_of_nil.
  - intros Hin. destruct (decide (Role.id r = Role.id draft)) as [Heq|Hne].
    + by rewrite bool_decide_eq_true_2.
    + rewrite bool_decide_eq_false_2 by done. apply IH.
      apply elem_of_cons in Hin as [Hin|Hin]; [congruence | done].
Qed.

Lemma NoDup_map_inj rs (x y : Role.t D) :
  NoDup (map Role.id rs) -> x ∈ rs -> y ∈ rs -> Role.id x = Role.id y -> x = y.
Proof.
  induction rs as [|r rs IH]; simpl; intros Hnd Hx Hy Hxy.
  - by apply elem_of_nil in Hx.
  - apply NoDup_cons in Hnd as [Hr Hnd].
    apply elem_of_cons in Hx as [->|Hx]; apply elem_of_cons in Hy as [->|Hy].
    + done.
    + exfalso. apply Hr. rewrite Hxy. apply list_elem_of_fmap. by exists y.
    + exfalso. apply Hr. rewrite <- Hxy. apply list_elem_of_fmap. by exists x.
    + by apply IH.
Qed.

(** X9. [handleSaveChanges] leaves the list of identifiers of the
    Collection as it is, and saving twice is saving once. *)
Theorem handleSaveChanges_ids_idempotent st :
  map Role.id (roles (handleSaveChanges st)) = map Role.id (roles st) /\
  handleSaveChanges (handleSaveChanges st) = handleSaveChanges st.
Proof.
  split; [apply save_map_ids|].
  unfold handleSaveChanges, setRoles. simpl. f_equal.
  induction (roles st) as [|r rs IH]; [done|]. simpl. rewrite IH. f_equal.
  destruct (decide (Role.id r = Role.id (editingRole st))) as [Heq|Hne].
  - by rewrite decide_True.
  - by rewrite decide_False.
Qed.

(** X10. After a save that found the Draft's id in the Collection,
    selecting that id loads the saved Draft again: the Cancel button
    right after Save changes nothing. *)
Theorem select_after_save st :
  Role.id (editingRole st) ∈ map Role.id (roles st) ->
  let saved := handleSaveChanges st in
  editingRole (handleSelectRole saved (Role.id (editingRole st)))
  = editingRole st /\
  (selectedRoleId st = Role.id (editingRole st) ->
   handleSelectRole saved (selectedRoleId saved) = saved).
Proof.
  intros Hin. cbv zeta.
  assert (Hload : handleSelectRole (handleSaveChanges st)
                    (Role.id (editingRole st))
                  = setSelectedRoleId (Role.id (editingRole st))
                      (handleSaveChanges st)).
  { unfold handleSelectRole. simpl. by rewrite findRole_saved. }
  split; [by rewrite Hload|].
  intros Hsel. simpl. rewrite Hsel, Hload.
  unfold setSelectedRoleId, handleSaveChanges, setRoles. simpl.
  by rewrite Hsel.
Qed.

(** X11. In a Collection with pairwise distinct ids, selecting an entity
    and saving at once leaves the Collection as it is. *)
Theorem save_after_select st E :
  NoDup (map Role.id (roles st)) ->
  E ∈ roles st ->
  roles (handleSaveChanges (handleSelectRole st (Role.id E))) = roles st.
Proof.
  intros Hnd Hin. unfold handleSelectRole.
  rewrite (findRole_unique _ _ Hnd Hin). simpl.
  assert (Hsame : forall r, r ∈ roles st -> Role.id r = Role.id E -> E = r)
    by (intros r Hr Hid; by apply (NoDup_map_inj (roles st))).
  induction (roles st) as [|r rs IH]; [done|]. simpl.
  apply NoDup_cons in Hnd as [_ Hnd]. f_equal.
  - destruct (decide (Role.id r = Role.id E)) as [Heq|]; [|done].
    apply Hsame; [left | done].
  - clear IH Hin Hnd.
    assert (Hrest : forall r', r' ∈ rs -> Role.id r' = Role.id E -> E = r')
      by (intros r' Hr'; apply Hsame; by right).
    clear Hsame. induction rs as [|r' rs IH]; [done|]. simpl. f_equal.
    + destruct (decide (Role.id r' = Role.id E)) as [Heq|]; [|done].
      apply Hrest; [left | done].
    + apply IH. intros r'' Hin. apply Hrest. by right.
Qed.

End SaveFacts.

Lemma select_after_save_witness :
  editingRole
    (handleSelectRole
       (handleSaveChanges (handleRoleNameChange GroupRoles.init "Guest"))
       (Num 1))
  = editingRole (handleRoleNameChange GroupRoles.init "Guest").
Proof.
  apply (proj1 (select_after_save (handleRoleNameChange GroupRoles.init "Guest")
                  ltac:(by_compute))).
Defined.

Lemma save_after_select_witness :
  roles (handleSaveChanges (handleSelectRole GroupRoles.init (Num 2)))
  = GroupRoles.initialRoles.
Proof.
  apply (save_after_select GroupRoles.init
           (Role.mk (Num 2) "Admin" "Full access for administrators"
              [ Resource.mk "Group Members" [Read; Add; Delete];
                Resource.mk "Forum Categories"
                  [Read; Add; Modify; Delete; Post] ])).
  - by_compute.
  - by_compute.
Defined.

(** ** Deleting an entity other than the selected one *)

Section ConfirmOtherFacts.
Context {D : Type}.
Implicit Types (st : State D).

(** X12. When the pending id is not the Selection, [confirmDeleteRole]
    removes the entities of that id and clears the latch, and leaves
    Selection, Draft and the dropdown flag as they are. *)
Theorem confirmDeleteRole_other st deleting :
  deletingRoleId st = Some deleting ->
  selectedRoleId st ≠ deleting ->
  confirmDeleteRole st
  = mkState (filter (fun role => Role.id role ≠ deleting) (roles st))
      (selectedRoleId st) (editingRole st) (isResourceDropdownOpen st) None.
Proof.
  intros Hdel Hsel. unfold confirmDeleteRole. rewrite Hdel.
  by rewrite decide_False.
Qed.

(** X13. A confirmed deletion leaves no entity of the pending id; the
    Collection gets strictly shorter when that id was present and is
    unchanged when it was not. *)
Theorem confirmDeleteRole_removes st deleting :
  deletingRoleId st = Some deleting ->
  let st' := confirmDeleteRole st in
  (deleting ∉ map Role.id (roles st')) /\
  (deleting ∈ map Role.id (roles st) ->
   (length (roles st') < length (roles st))%nat) /\
  (deleting ∉ map Role.id (roles st) -> roles st' = roles st).
Proof.
  intros Hdel. cbv zeta.
  assert (Hroles : roles (confirmDeleteRole st)
                   = filter (fun role => Role.id role ≠ deleting) (roles st)).
  { unfold confirmDeleteRole. rewrite Hdel.
    destruct (decide _); [|done].
    by destruct (filter _ (roles st)). }
  rewrite Hroles. split; [|split].
  - intros (r & Hid & Hin)%list_elem_of_fmap.
    apply list_elem_of_filter in Hin as [Hne _]. done.
  - intros (r & Hid & Hin)%list_elem_of_fmap.
    apply (length_filter_lt _ _ r); [done|]. intros Hne. by apply Hne.
  - generalize (roles st). intros rs Hno.
    induction rs as [|r rs IH]; [done|].
    rewrite filter_cons. rewrite decide_True.
    + f_equal. apply IH. intros Hin. apply Hno. by right.
    + intros Heq. apply Hno. rewrite <- Heq. left.
Qed.

End ConfirmOtherFacts.

Lemma confirmDeleteRole_other_witness :
  let st' := confirmDeleteRole (handleDeleteRole GroupRoles.init (Num 2)) in
  map Role.id (roles st') = [Num 1; Num 3] /\
  selectedRoleId st' = Num 1 /\
  editingRole st' = editingRole GroupRoles.init.
Proof.
  cbv zeta.
  rewrite (confirmDeleteRole_other
             (handleDeleteRole GroupRoles.init (Num 2)) (Num 2) eq_refl);
    [|discriminate].
  split; [reflexivity|]. split; reflexivity.
Defined.

Lemma confirmDeleteRole_removes_witness :
  (length (roles (confirmDeleteRole (handleDeleteRole GroupRoles.init (Num 2))))
   < 3)%nat.
Proof.
  destruct (confirmDeleteRole_removes
              (handleDeleteRole GroupRoles.init (Num 2)) (Num 2) eq_refl)
    as (_ & Hlt & _).
  apply Hlt. by_compute.
Defined.

(** ** Identifiers *)

Lemma number_lt_irrefl (x : number) : ¬ number_lt x x.
Proof. destruct x; simpl; [tauto | lia]. Qed.

Section IdFacts.
Context {D : Type}.
Variable newDescription : D.
Variable newNamePrefix : string.
Implicit Types (st : State D) (rs : list (Role.t D)).

Lemma idsOk_filter rs (P : Role.t D -> Prop) `{!forall r, Decision (P r)} :
  idsOk rs -> idsOk (filter P rs).
Proof.
  intros [Hnd Hint]. split.
  - eapply sublist_NoDup; [exact Hnd|].
    change (map ?f ?l) with (f <$> l).
    apply fmap_sublist, sublist_filter.
  - apply Forall_forall. intros r [_ Hin]%list_elem_of_filter.
    by apply (proj1 (Forall_forall _ _) Hint).
Qed.

(** X14. Every operation keeps the identifiers of the Collection integer
    and pairwise distinct; for [handleAddRole] this needs a non-empty
    Collection whose ids are safe integers (an empty one gets the id
    [-Infinity], and from 2^53 on [+ 1] can give back the largest id). *)
Theorem step_idsOk st ev st' :
  idsOk (roles st) ->
  (ev = AddEntity ->
   roles st ≠ [] /\
   forall role, role ∈ roles st -> isSafeInteger (Role.id role)) ->
  step newDescription newNamePrefix st ev = Some st' ->
  idsOk (roles st').
Proof.
  intros Hok Hadd. destruct ev; simpl.
  - intros [= <-]. unfold handleSelectRole. by destruct (findRole _ _).
  - by intros [= <-].
  - by intros [= <-].
  - unfold handlePermissionChange. destruct (js_index _ _); [|done].
    by intros [= <-].
  - intros [= <-]. destruct Hok as [Hnd Hint]. split; simpl.
    + by rewrite save_map_ids.
    + change (map ?f ?l) with (f <$> l). apply Forall_fmap.
      eapply Forall_impl; [exact Hint|]. intros r Hr. simpl.
      destruct (decide (Role.id r = Role.id (editingRole st))) as [<-|]; done.
  - intros [= <-]. destruct Hok as [Hnd Hint].
    destruct (Hadd eq_refl) as [Hne Hsafe].
    destruct (roles st) as [|r0 rs] eqn:Hrs; [done|].
    destruct (handleAddRole_fresh newDescription newNamePrefix st)
      as (newId & Hroles & Hfresh & _).
    { apply Forall_cons in Hint as [Hr0 _]. rewrite Hrs.
      destruct (Role.id r0) as [|z] eqn:Hid; [done|].
      exists r0, z. split; [left | done]. }
    { intros role z Hin Hid. rewrite Hrs in Hin.
      specialize (Hsafe role Hin). rewrite Hid in Hsafe. simpl in Hsafe. lia. }
    rewrite Hroles, Hrs. split.
    + rewrite map_app. apply NoDup_app. split; [done|]. split.
      * intros x (r & -> & Hin)%list_elem_of_fmap [= Heq]%list_elem_of_singleton.
        rewrite <- Hrs in Hin. apply Hfresh in Hin. rewrite Heq in Hin.
        by apply number_lt_irrefl in Hin.
      * apply NoDup_singleton.
    + apply Forall_app. split; [done|]. by repeat constructor.
  - by intros [= <-].
  - intros [= <-]. unfold confirmDeleteRole.
    destruct (deletingRoleId st) as [deleting|]; [|done].
    assert (Hkept : idsOk (filter (fun role => Role.id role ≠ deleting)
                             (roles st))) by by apply idsOk_filter.
    destruct (decide _); [|done]. by destruct (filter _ (roles st)).
  - by intros [= <-].
  - by intros [= <-].
  - destruct (hasResource st resource); [done|]. by intros [= <-].
  - by intros [= <-].
  - intros [= <-]. unfold handleClickOutside.
    by destruct (isResourceDropdownOpen st).
Qed.

(** X15. Identifiers are reused: when the pending id [d], a double, is
    at least every id of the Collection and an entity of another integer
    id remains, deleting and then adding gives the new entity an id not
    above [d]; it is [d] itself when the id [d - 1] is present. *)
Theorem deleted_id_is_reused st (d : Z) :
  isDouble d ->
  deletingRoleId st = Some (Num d) ->
  (forall role, role ∈ roles st -> number_lt (Role.id role) (Num (d + 1))) ->
  (exists role z, role ∈ roles st /\ Role.id role = Num z /\ z ≠ d) ->
  let st' :=
    handleAddRole newDescription newNamePrefix (confirmDeleteRole st) in
  exists n,
    selectedRoleId st' = Num n /\
    Role.id (editingRole st') = Num n /\
    n <= d /\
    (Num (d - 1) ∈ map Role.id (roles st) -> n = d).
Proof.
  intros [Hdouble _] Hdel Hmaxd (r0 & z0 & Hin0 & Hid0 & Hne0). cbv zeta.
  assert (Hroles : roles (confirmDeleteRole st)
                   = filter (fun role => Role.id role ≠ Num d) (roles st)).
  { unfold confirmDeleteRole. rewrite Hdel.
    destruct (decide _); [|done]. by destruct (filter _ (roles st)). }
  unfold handleAddRole. simpl. rewrite Hroles.
  set (kept := filter _ (roles st)).
  assert (Hkept : forall r, r ∈ kept <-> Role.id r ≠ Num d /\ r ∈ roles st).
  { intros r. unfold kept. by rewrite list_elem_of_filter. }
  pose proof (Math_max_spec (map Role.id kept)) as Hmax.
  destruct (Math_max (map Role.id kept)) as [|m].
  - exfalso. rewrite Forall_forall in Hmax.
    assert (Num z0 = NegInfinity) as Habs; [|discriminate Habs].
    apply Hmax. rewrite <- Hid0. apply list_elem_of_fmap. exists r0.
    split; [done|]. apply Hkept. split; [|done]. rewrite Hid0. congruence.
  - destruct Hmax as [Hm Hle]. simpl. exists (roundToDouble (m + 1)).
    split; [done|]. split; [done|].
    apply list_elem_of_fmap in Hm as (rm & Hidm & Hinm).
    apply Hkept in Hinm as [Hnem Hinm].
    pose proof (Hmaxd rm Hinm) as Hlt. rewrite <- Hidm in Hlt, Hnem.
    simpl in Hlt. assert (m ≠ d) by congruence.
    split; [apply roundToDouble_le_double; [lia | done]|].
    intros (r1 & Hid1 & Hin1)%list_elem_of_fmap.
    assert (Hk1 : r1 ∈ kept).
    { apply Hkept. split; [|done]. rewrite <- Hid1. intros [= ?]. lia. }
    rewrite Forall_forall in Hle.
    specialize (Hle (Num (d - 1))). simpl in Hle.
    assert (d - 1 <= m).
    { apply Hle. rewrite Hid1. apply list_elem_of_fmap. by exists r1. }
    replace (m + 1) with d by lia. exact Hdouble.
Qed.

End IdFacts.

Lemma step_idsOk_witness :
  idsOk (roles (GroupRoles.handleAddRole GroupRoles.init)).
Proof.
  apply (step_idsOk "" "New " GroupRoles.init AddEntity).
  - split; [by_compute|]. apply Forall_forall.
    intros role Hin. revert role Hin. apply Forall_forall. by_compute.
  - intros _. split; [discriminate|]. intros role Hin. simpl in Hin.
    repeat (apply elem_of_cons in Hin as [->|Hin]; [simpl; lia|]).
    by apply elem_of_nil in Hin.
  - reflexivity.
Defined.

(** With ids 1, 2, 3: deleting 3 and adding gives the new role the id 3
    again. *)
Lemma deleted_id_is_reused_witness :
  selectedRoleId
    (GroupRoles.handleAddRole
       (confirmDeleteRole (handleDeleteRole GroupRoles.init (Num 3))))
  = Num 3.
Proof.
  destruct (deleted_id_is_reused "" "New "
              (handleDeleteRole GroupRoles.init (Num 3)) 3
              (conj eq_refl eq_refl) eq_refl)
    as (n & Hsel & _ & _ & Hn).
  - intros role Hin. simpl in Hin.
    repeat (apply elem_of_cons in Hin as [->|Hin]; [simpl; lia|]).
    by apply elem_of_nil in Hin.
  - exists (Role.mk (Num 2) "Admin" "Full access for administrators"
              [ Resource.mk "Group Members" [Read; Add; Delete];
                Resource.mk "Forum Categories"
                  [Read; Add; Modify; Delete; Post] ]), 2.
    split; [by_compute|]. split; [reflexivity | lia].
  - unfold GroupRoles.handleAddRole. rewrite Hsel. f_equal. apply Hn.
    by_compute.
Defined.

(** ** States reached through the rendered controls *)

Section UiInvariants.
Context {D : Type}.
Variable newDescription : D.
Variable newNamePrefix : string.
Implicit Types (st : State D) (ev : Event D).

Lemma uiReachable_reachable st0 st :
  uiReachable newDescription newNamePrefix st0 st ->
  reachable newDescription newNamePrefix st0 st.
Proof.
  induction 1 as [|st ev st' _ IH _ Hstep]; [constructor|].
  by eapply reachable_step.
Qed.

Lemma handleSelectRole_frame st roleId :
  roles (handleSelectRole st roleId) = roles st /\
  selectedRoleId (handleSelectRole st roleId) = roleId /\
  deletingRoleId (handleSelectRole st roleId) = deletingRoleId st.
Proof. unfold handleSelectRole. by destruct (findRole _ _). Qed.

Lemma handlePermissionChange_frame st i p st' :
  handlePermissionChange st i p = Some st' ->
  roles st' = roles st /\ selectedRoleId st' = selectedRoleId st /\
  deletingRoleId st' = deletingRoleId st /\
  Role.id (editingRole st') = Role.id (editingRole st).
Proof.
  unfold handlePermissionChange. destruct (js_index _ _); [|done].
  by intros [= <-].
Qed.

Lemma confirmDeleteRole_roles st deleting :
  deletingRoleId st = Some deleting ->
  roles (confirmDeleteRole st)
  = filter (fun role => Role.id role ≠ deleting) (roles st).
Proof.
  intros Hdel. unfold confirmDeleteRole. rewrite Hdel.
  destruct (decide _); [|done]. by destruct (filter _ (roles st)).
Qed.

Lemma selectionOk_frame st st' :
  roles st' = roles st -> selectedRoleId st' = selectedRoleId st ->
  selectionOk st -> selectionOk st'.
Proof. unfold selectionOk. by intros -> ->. Qed.

Lemma ui_step_selectionOk st ev st' :
  selectionOk st -> offered st ev = true ->
  step newDescription newNamePrefix st ev = Some st' -> selectionOk st'.
Proof.
  intros Hok Hoff. destruct ev; simpl in *.
  - intros [= <-]. destruct (handleSelectRole_frame st roleId) as (Hr & Hs & _).
    apply orb_true_iff in Hoff as [Hin|Heq].
    + left. rewrite Hr, Hs. by apply bool_decide_eq_true in Hin.
    + apply bool_decide_eq_true in Heq. subst roleId.
      by apply (selectionOk_frame st).
  - intros [= <-]. by apply (selectionOk_frame st).
  - intros [= <-]. by apply (selectionOk_frame st).
  - intros (Hr & Hs & _)%handlePermissionChange_frame.
    by apply (selectionOk_frame st).
  - intros [= <-]. destruct Hok as [Hin|[Hnil Hsel]].
    + left. simpl. by rewrite save_map_ids.
    + right. simpl. by rewrite Hnil.
  - intros [= <-]. left. simpl. rewrite map_app. apply elem_of_app. right.
    simpl. left.
  - intros [= <-]. by apply (selectionOk_frame st).
  - intros [= <-]. unfold confirmDeleteRole.
    destruct (deletingRoleId st) as [deleting|]; [|done].
    destruct (decide (selectedRoleId st = deleting)) as [Heq|Hne].
    + destruct (filter _ (roles st)) as [|first rest] eqn:Hf.
      * right. simpl. done.
      * left. simpl. left.
    + destruct Hok as [Hin|[Hnil Hsel]].
      * left. simpl. apply list_elem_of_fmap in Hin as (r & Hid & Hin).
        apply list_elem_of_fmap. exists r. split; [done|].
        apply list_elem_of_filter. split; [congruence | done].
      * right. simpl. by rewrite Hnil.
  - intros [= <-]. by apply (selectionOk_frame st).
  - intros [= <-]. by apply (selectionOk_frame st).
  - destruct (hasResource st resource); [done|]. intros [= <-].
    by apply (selectionOk_frame st).
  - intros [= <-]. by apply (selectionOk_frame st).
  - intros [= <-]. unfold handleClickOutside.
    by destruct (isResourceDropdownOpen st).
Qed.

Lemma ui_step_draftOk st ev st' :
  draftOk st -> offered st ev = true ->
  step newDescription newNamePrefix st ev = Some st' -> draftOk st'.
Proof.
  unfold draftOk. intros Hok Hoff. destruct ev; simpl in *.
  - intros [= <-]. unfold handleSelectRole.
    destruct (findRole (roles st) roleId) as [role|] eqn:Hfind; simpl.
    + intros _. by apply findRole_Some in Hfind as [_ ?].
    + pose proof (proj1 (findRole_None _ _) Hfind) as Hno.
      apply orb_true_iff in Hoff as [Hin|Heq].
      * apply bool_decide_eq_true in Hin.
        apply list_elem_of_fmap in Hin as (r & Hid & Hin).
        exfalso. by apply (Hno r).
      * apply bool_decide_eq_true in Heq. by subst roleId.
  - by intros [= <-].
  - by intros [= <-].
  - intros (Hr & Hs & _ & Hid)%handlePermissionChange_frame.
    rewrite Hr, Hs, Hid. done.
  - intros [= <-]. simpl. intros Hne. apply Hok.
    intros Hnil. apply Hne. by rewrite Hnil.
  - by intros [= <-].
  - by intros [= <-].
  - intros [= <-]. unfold confirmDeleteRole.
    destruct (deletingRoleId st) as [deleting|]; [|done].
    destruct (decide (selectedRoleId st = deleting)) as [Heq|Hne].
    + by destruct (filter _ (roles st)) as [|first rest] eqn:Hf.
    + simpl. intros Hkept. apply Hok. intros Hnil. by rewrite Hnil in Hkept.
  - by intros [= <-].
  - by intros [= <-].
  - destruct (hasResource st resource); [done|]. by intros [= <-].
  - by intros [= <-].
  - intros [= <-]. unfold handleClickOutside.
    by destruct (isResourceDropdownOpen st).
Qed.

Lemma ui_step_latchOk st ev st' :
  latchOk st -> offered st ev = true ->
  step newDescription newNamePrefix st ev = Some st' -> latchOk st'.
Proof.
  unfold latchOk. intros Hok Hoff. destruct ev; simpl in *.
  - intros [= <-]. destruct (handleSelectRole_frame st roleId) as (-> & _ & ->).
    done.
  - by intros [= <-].
  - by intros [= <-].
  - intros (-> & _ & -> & _)%handlePermissionChange_frame. done.
  - intros [= <-]. simpl. by rewrite save_map_ids.
  - intros [= <-]. simpl. intros d Hd. rewrite map_app.
    apply elem_of_app. left. by apply Hok.
  - intros [= <-]. simpl. intros d [= <-]. by apply bool_decide_eq_true in Hoff.
  - intros [= <-]. unfold confirmDeleteRole.
    destruct (deletingRoleId st) as [deleting|]; [|done].
    destruct (decide _); [|done]. by destruct (filter _ (roles st)).
  - by intros [= <-].
  - by intros [= <-].
  - destruct (hasResource st resource); [done|]. by intros [= <-].
  - by intros [= <-].
  - intros [= <-]. unfold handleClickOutside.
    by destruct (isResourceDropdownOpen st).
Qed.

Lemma ui_step_catalogued st ev st' :
  cataloguedState st -> offered st ev = true ->
  step newDescription newNamePrefix st ev = Some st' -> cataloguedState st'.
Proof.
  unfold cataloguedState, catalogued.
  intros [Hroles Hdraft] Hoff. destruct ev; simpl in *.
  - intros [= <-]. unfold handleSelectRole.
    destruct (findRole (roles st) roleId) as [role|] eqn:Hfind; [|done].
    split; [done|]. simpl. apply findRole_Some in Hfind as [Hin _].
    by apply (proj1 (Forall_forall _ _) Hroles).
  - by intros [= <-].
  - by intros [= <-].
  - unfold handlePermissionChange.
    destruct (js_index _ resourceIndex) as [res|] eqn:Hres; [|done].
    intros [= <-]. split; [done|]. simpl.
    apply js_index_Some in Hres as [_ Hres].
    apply Forall_insert; [done|]. rewrite togglePermissionOf_name.
    by apply (Forall_lookup_1 _ _ _ _ Hdraft Hres).
  - intros [= <-]. split; [|done]. simpl.
    change (map ?f ?l) with (f <$> l). apply Forall_fmap.
    eapply Forall_impl; [exact Hroles|]. intros r Hr. simpl.
    by destruct (decide _).
  - intros [= <-]. split; simpl; [|constructor].
    apply Forall_app. split; [done|]. by repeat constructor.
  - by intros [= <-].
  - intros [= <-]. unfold confirmDeleteRole.
    destruct (deletingRoleId st) as [deleting|]; [|done].
    assert (Hkept : Forall (fun role =>
                Forall (fun r => Resource.name r ∈ allResources)
                  (Role.resources role))
              (filter (fun role => Role.id role ≠ deleting) (roles st))).
    { apply Forall_forall. intros r [_ Hin]%list_elem_of_filter.
      by apply (proj1 (Forall_forall _ _) Hroles). }
    destruct (decide _); [|done].
    destruct (filter _ (roles st)) as [|first rest]; [done|].
    split; [done|]. simpl. by apply Forall_cons in Hkept as [? _].
  - by intros [= <-].
  - intros [= <-]. split; [done|]. simpl. by apply Forall_delete.
  - destruct (hasResource st resource); [done|]. intros [= <-].
    split; [done|]. simpl. apply Forall_app. split; [done|].
    constructor; [|constructor]. simpl.
    apply andb_true_iff in Hoff as [_ Hin]. apply bool_decide_eq_true in Hin.
    by apply dropdownResources_elem in Hin as [? _].
  - by intros [= <-].
  - intros [= <-]. unfold handleClickOutside.
    by destruct (isResourceDropdownOpen st).
Qed.

(** An invariant of the offered steps holds in every state they reach. *)
Lemma uiReachable_ind_inv (P : State D -> Prop) st0 :
  P st0 ->
  (forall st ev st',
     P st -> offered st ev = true ->
     step newDescription newNamePrefix st ev = Some st' -> P st') ->
  forall st, uiReachable newDescription newNamePrefix st0 st -> P st.
Proof.
  intros H0 Hstep st Hreach.
  induction Hreach as [|st ev st' _ IH Hoff Hs]; [done|].
  by eapply Hstep.
Qed.

End UiInvariants.

Lemma wf_catalogued_bounds {D} (role : Role.t D) :
  wfRole role -> catalogued role ->
  (length (Role.resources role) <= 7)%nat /\
  Forall (fun r => (length (Resource.permissions r) <= 6)%nat)
    (Role.resources role).
Proof.
  intros [Hnames Hperms] Hcat. split.
  - rewrite <- (length_map Resource.name).
    change 7%nat with (length allResources).
    apply submseteq_length, NoDup_submseteq; [done|].
    intros x (r & -> & Hin)%list_elem_of_fmap.
    by apply (proj1 (Forall_forall _ _) Hcat).
  - eapply Forall_impl; [exact Hperms|]. intros r Hnd. simpl in Hnd.
    change 6%nat with (length allPermissions).
    apply submseteq_length, NoDup_submseteq; [done|].
    intros p _. apply allPermissions_complete.
Qed.

Lemma GroupRoles_init_catalogued : cataloguedState GroupRoles.init.
Proof.
  split.
  - apply Forall_forall. intros role Hin. revert role Hin.
    apply Forall_forall. by_compute.
  - by_compute.
Qed.

Lemma SecurityRules_init_catalogued : cataloguedState SecurityRules.init.
Proof.
  split.
  - apply Forall_forall. intros role Hin. revert role Hin.
    apply Forall_forall. by_compute.
  - by_compute.
Qed.

Lemma selectionOk_heading {D} (st : State D) :
  selectionOk st -> roles st ≠ [] ->
  exists role,
    selectedRole st = Some role /\ role ∈ roles st /\
    Role.id role = selectedRoleId st.
Proof.
  intros [Hin|[Hnil _]] Hne; [|done].
  unfold selectedRole.
  destruct (findRole (roles st) (selectedRoleId st)) as [role|] eqn:Hfind.
  - exists role. apply findRole_Some in Hfind as [? ?]. done.
  - pose proof (proj1 (findRole_None _ _) Hfind) as Hno.
    apply list_elem_of_fmap in Hin as (r & Hid & Hr).
    exfalso. by apply (Hno r).
Qed.

(** X16. In every state either editor reaches through its controls, the
    Selection is the id of an entity of the Collection, or the Collection
    is empty and the Selection is 0; so while the Collection is not empty
    the heading shows an entity that carries the Selection, never the
    fallback. *)
Theorem ui_selection_names_entity :
  (forall st, uiReachable "" "New " GroupRoles.init st ->
     selectionOk st /\
     (roles st ≠ [] ->
      exists role, selectedRole st = Some role /\ role ∈ roles st /\
                   Role.id role = selectedRoleId st)) /\
  (forall st, uiReachable tt "New Rule " SecurityRules.init st ->
     selectionOk st /\
     (roles st ≠ [] ->
      exists role, selectedRole st = Some role /\ role ∈ roles st /\
                   Role.id role = selectedRoleId st)).
Proof.
  split; intros st Hreach.
  - assert (Hok : selectionOk st).
    { revert st Hreach. apply uiReachable_ind_inv.
      - left. by_compute.
      - apply ui_step_selectionOk. }
    split; [done | by apply selectionOk_heading].
  - assert (Hok : selectionOk st).
    { revert st Hreach. apply uiReachable_ind_inv.
      - left. by_compute.
      - apply ui_step_selectionOk. }
    split; [done | by apply selectionOk_heading].
Qed.

(** X17. In every such state with a non-empty Collection, the Draft
    carries the Selection as its id, and an entity of that id is in the
    Collection: Save always has an entry to replace. *)
Theorem ui_draft_is_selected :
  (forall st, uiReachable "" "New " GroupRoles.init st ->
     roles st ≠ [] ->
     Role.id (editingRole st) = selectedRoleId st /\
     Role.id (editingRole st) ∈ map Role.id (roles st)) /\
  (forall st, uiReachable tt "New Rule " SecurityRules.init st ->
     roles st ≠ [] ->
     Role.id (editingRole st) = selectedRoleId st /\
     Role.id (editingRole st) ∈ map Role.id (roles st)).
Proof.
  split; intros st Hreach Hne.
  - assert (Hdraft : draftOk st).
    { revert st Hreach Hne. intros st Hreach _. revert st Hreach.
      apply uiReachable_ind_inv; [by intros _ | apply ui_step_draftOk]. }
    assert (Hsel : selectionOk st).
    { revert st Hreach Hne Hdraft. intros st Hreach _ _. revert st Hreach.
      apply uiReachable_ind_inv;
        [left; by_compute | apply ui_step_selectionOk]. }
    split; [by apply Hdraft|]. rewrite (Hdraft Hne).
    by destruct Hsel as [?|[? _]].
  - assert (Hdraft : draftOk st).
    { revert st Hreach Hne. intros st Hreach _. revert st Hreach.
      apply uiReachable_ind_inv; [by intros _ | apply ui_step_draftOk]. }
    assert (Hsel : selectionOk st).
    { revert st Hreach Hne Hdraft. intros st Hreach _ _. revert st Hreach.
      apply uiReachable_ind_inv;
        [left; by_compute | apply ui_step_selectionOk]. }
    split; [by apply Hdraft|]. rewrite (Hdraft Hne).
    by destruct Hsel as [?|[? _]].
Qed.

(** X18. In every such state a pending deletion names an entity of the
    Collection, so a deletion confirmed in the dialog always shortens the
    Collection. *)
Theorem ui_pending_names_entity :
  (forall st, uiReachable "" "New " GroupRoles.init st ->
     latchOk st /\
     (offered st ConfirmDelete = true ->
      (length (roles (confirmDeleteRole st)) < length (roles st))%nat)) /\
  (forall st, uiReachable tt "New Rule " SecurityRules.init st ->
     latchOk st /\
     (offered st ConfirmDelete = true ->
      (length (roles (confirmDeleteRole st)) < length (roles st))%nat)).
Proof.
  split; intros st Hreach.
  - assert (Hok : latchOk st).
    { revert st Hreach.
      apply uiReachable_ind_inv; [by intros d [=] | apply ui_step_latchOk]. }
    split; [done|]. simpl.
    destruct (deletingRoleId st) as [deleting|] eqn:Hdel; [intros _ | done].
    rewrite (confirmDeleteRole_roles _ _ Hdel).
    specialize (Hok deleting Hdel).
    apply list_elem_of_fmap in Hok as (r & Hid & Hin).
    apply (length_filter_lt _ _ r); [done|]. intros Hne. by apply Hne.
  - assert (Hok : latchOk st).
    { revert st Hreach.
      apply uiReachable_ind_inv; [by intros d [=] | apply ui_step_latchOk]. }
    split; [done|]. simpl.
    destruct (deletingRoleId st) as [deleting|] eqn:Hdel; [intros _ | done].
    rewrite (confirmDeleteRole_roles _ _ Hdel).
    specialize (Hok deleting Hdel).
    apply list_elem_of_fmap in Hok as (r & Hid & Hin).
    apply (length_filter_lt _ _ r); [done|]. intros Hne. by apply Hne.
Qed.

(** X19. In every such state every attachment, in the Collection and in
    the Draft, is of a catalogued resource; hence an entity has at most 7
    attachments and an attachment at most 6 permissions. *)
Theorem ui_sizes_bounded :
  (forall st role,
     uiReachable "" "New " GroupRoles.init st ->
     role ∈ roles st \/ role = editingRole st ->
     catalogued role /\
     (length (Role.resources role) <= 7)%nat /\
     Forall (fun r => (length (Resource.permissions r) <= 6)%nat)
       (Role.resources role)) /\
  (forall st role,
     uiReachable tt "New Rule " SecurityRules.init st ->
     role ∈ roles st \/ role = editingRole st ->
     catalogued role /\
     (length (Role.resources role) <= 7)%nat /\
     Forall (fun r => (length (Resource.permissions r) <= 6)%nat)
       (Role.resources role)).
Proof.
  split; intros st role Hreach Hrole.
  - assert (Hcat : cataloguedState st).
    { revert st Hreach Hrole. intros st Hreach _. revert st Hreach.
      apply uiReachable_ind_inv;
        [apply GroupRoles_init_catalogued | apply ui_step_catalogued]. }
    assert (Hwf : wfState st).
    { eapply reachable_wf; [apply GroupRoles_init_wf|].
      by apply uiReachable_reachable. }
    assert (wfRole role /\ catalogued role) as [Hw Hc].
    { destruct Hcat as [Hcr Hcd], Hwf as [Hwr Hwd].
      destruct Hrole as [Hin| ->]; [|done].
      split; [by apply (proj1 (Forall_forall _ _) Hwr)
             | by apply (proj1 (Forall_forall _ _) Hcr)]. }
    split; [done | by apply wf_catalogued_bounds].
  - assert (Hcat : cataloguedState st).
    { revert st Hreach Hrole. intros st Hreach _. revert st Hreach.
      apply uiReachable_ind_inv;
        [apply SecurityRules_init_catalogued | apply ui_step_catalogued]. }
    assert (Hwf : wfState st).
    { eapply reachable_wf; [apply SecurityRules_init_wf|].
      by apply uiReachable_reachable. }
    assert (wfRole role /\ catalogued role) as [Hw Hc].
    { destruct Hcat as [Hcr Hcd], Hwf as [Hwr Hwd].
      destruct Hrole as [Hin| ->]; [|done].
      split; [by apply (proj1 (Forall_forall _ _) Hwr)
             | by apply (proj1 (Forall_forall _ _) Hcr)]. }
    split; [done | by apply wf_catalogued_bounds].
Qed.

(** Two states the Group Roles editor reaches through its controls: with
    role 2 pending deletion, and after confirming it and adding a role. *)
Lemma GroupRoles_ui_pending :
  uiReachable "" "New " GroupRoles.init
    (handleDeleteRole GroupRoles.init (Num 2)).
Proof.
  apply (uiReachable_step _ _ _ GroupRoles.init (RequestDelete (Num 2)));
    [apply uiReachable_init | reflexivity | reflexivity].
Qed.

Lemma GroupRoles_ui_trace :
  uiReachable "" "New " GroupRoles.init
    (GroupRoles.handleAddRole
       (confirmDeleteRole (handleDeleteRole GroupRoles.init (Num 2)))).
Proof.
  apply (uiReachable_step _ _ _
           (confirmDeleteRole (handleDeleteRole GroupRoles.init (Num 2)))
           AddEntity); [|reflexivity | reflexivity].
  apply (uiReachable_step _ _ _
           (handleDeleteRole GroupRoles.init (Num 2)) ConfirmDelete);
    [apply GroupRoles_ui_pending | reflexivity | reflexivity].
Qed.

Lemma ui_selection_names_entity_witness :
  selectionOk
    (GroupRoles.handleAddRole
       (confirmDeleteRole (handleDeleteRole GroupRoles.init (Num 2)))).
Proof.
  apply (proj1 ui_selection_names_entity). apply GroupRoles_ui_trace.
Defined.

Lemma ui_draft_is_selected_witness :
  Role.id
    (editingRole
       (GroupRoles.handleAddRole
          (confirmDeleteRole (handleDeleteRole GroupRoles.init (Num 2)))))
  = Num 4.
Proof.
  destruct (proj1 ui_draft_is_selected _ GroupRoles_ui_trace) as [Hid _].
  - discriminate.
  - rewrite Hid. reflexivity.
Defined.

Lemma ui_pending_names_entity_witness :
  (length (roles (confirmDeleteRole (handleDeleteRole GroupRoles.init (Num 2))))
   < 3)%nat.
Proof.
  destruct (proj1 ui_pending_names_entity _ GroupRoles_ui_pending)
    as [_ Hlt].
  apply Hlt. reflexivity.
Defined.

Lemma ui_sizes_bounded_witness :
  (length
     (Role.resources
        (editingRole
           (GroupRoles.handleAddRole
              (confirmDeleteRole (handleDeleteRole GroupRoles.init (Num 2))))))
   <= 7)%nat.
Proof.
  destruct (proj1 ui_sizes_bounded _ _ GroupRoles_ui_trace (or_intror eq_refl))
    as (_ & Hlen & _).
  exact Hlen.
Defined.

(** ** Adding to a Collection of safe integer ids *)

Section AddFresh.
Context {D : Type}.
Variable newDescription : D.
Variable newNamePrefix : string.
Implicit Types (st : State D).

(** X20. On a Collection with at least one integer id, all of them from
    -2^53 to 2^53 - 1, [handleAddRole] keeps the entities in place and
    appends one whose id is an integer above every id present, which is
    named by the prefix and that id and has no resources; it becomes the
    Selection and the Draft, and a pending deletion stays pending. *)
Theorem handleAddRole_appends_fresh st :
  (exists role z, role ∈ roles st /\ Role.id role = Num z) ->
  (forall role z,
     role ∈ roles st -> Role.id role = Num z ->
     - 9007199254740992 <= z < 9007199254740992) ->
  let st' := handleAddRole newDescription newNamePrefix st in
  exists newId,
    let newRole :=
      Role.mk (Num newId)
        (String.append newNamePrefix (number_toString (Num newId)))
        newDescription [] in
    roles st' = (roles st ++ [newRole])%list /\
    (forall role, role ∈ roles st -> number_lt (Role.id role) (Num newId)) /\
    (Num newId ∉ map Role.id (roles st)) /\
    selectedRoleId st' = Num newId /\
    editingRole st' = newRole /\
    deletingRoleId st' = deletingRoleId st.
Proof.
  intros Hint Hsafe.
  destruct (handleAddRole_fresh newDescription newNamePrefix st Hint Hsafe)
    as (newId & Hroles & Hfresh & Hsel & Hdraft).
  exists newId. cbv zeta. split; [exact Hroles|]. split; [exact Hfresh|].
  split; [|split; [exact Hsel|split; [exact Hdraft | done]]].
  intros (r & Hid & Hin)%list_elem_of_fmap.
  apply Hfresh in Hin. rewrite <- Hid in Hin. by apply number_lt_irrefl in Hin.
Qed.

End AddFresh.

Lemma handleAddRole_appends_fresh_witness :
  exists newId,
    selectedRoleId (GroupRoles.handleAddRole GroupRoles.init) = Num newId /\
    (Num newId ∉ map Role.id GroupRoles.initialRoles).
Proof.
  destruct (handleAddRole_appends_fresh "" "New " GroupRoles.init)
    as (n & _ & _ & Hnew & Hsel & _).
  - exists (Role.mk (Num 1) "Member" "Basic access for regular users"
      [ Resource.mk "Group Members" [Read; Add; Delete];
        Resource.mk "Forum Categories" [Read; Add; Modify; Delete; Post];
        Resource.mk "Category1" [Edit; Delete; Post];
        Resource.mk "Category2" [Post] ]), 1.
    split; [by_compute | reflexivity].
  - intros role z Hin Hid. simpl in Hin.
    repeat (apply elem_of_cons in Hin as [->|Hin];
            [simpl in Hid; injection Hid as <-; lia|]).
    by apply elem_of_nil in Hin.
  - exists n. split; [exact Hsel | exact Hnew].
Defined.

(** ** Adding at the largest safe id *)

(** From the state with the single added role [n], below 2^53: add a
    role, ask to delete role [n], confirm. *)
Lemma only_next (n : Z) :
  - 9007199254740992 <= n < 9007199254740992 ->
  uiReachable "" "New " GroupRoles.init (Scenario.only n) ->
  uiReachable "" "New " GroupRoles.init (Scenario.only (n + 1)).
Proof.
  intros Hn Hreach.
  assert (Hadd : handleAddRole "" "New " (Scenario.only n)
                 = mkState [Scenario.added n; Scenario.added (n + 1)]
                     (Num (n + 1)) (Scenario.added (n + 1)) false None).
  { unfold handleAddRole, Scenario.only. simpl.
    rewrite roundToDouble_small by lia. reflexivity. }
  pose proof (uiReachable_step _ _ _ _ AddEntity _ Hreach eq_refl eq_refl)
    as H1.
  rewrite Hadd in H1.
  assert (Hoff : offered
            (mkState [Scenario.added n; Scenario.added (n + 1)]
               (Num (n + 1)) (Scenario.added (n + 1)) false None)
            (RequestDelete (Num n)) = true).
  { simpl. apply bool_decide_eq_true_2. left. }
  pose proof (uiReachable_step _ _ _ _ (RequestDelete (Num n)) _ H1 Hoff
                eq_refl) as H2.
  pose proof (uiReachable_step _ _ _ _ ConfirmDelete _ H2 eq_refl eq_refl)
    as H3.
  assert (Hconfirm :
    confirmDeleteRole
      (handleDeleteRole
         (mkState [Scenario.added n; Scenario.added (n + 1)]
            (Num (n + 1)) (Scenario.added (n + 1)) false None) (Num n))
    = Scenario.only (n + 1)).
  { unfold confirmDeleteRole, handleDeleteRole. simpl.
    rewrite decide_False by (intros [= ?]; lia).
    rewrite filter_cons, decide_False by (simpl; intros Hne; by apply Hne).
    rewrite filter_cons, decide_True by (simpl; intros [= ?]; lia).
    reflexivity. }
  by rewrite Hconfirm in H3.
Qed.

(** On the seed: add a role (id 4), then delete roles 1, 2 and 3. *)
Lemma only_4_reached :
  uiReachable "" "New " GroupRoles.init (Scenario.only 4).
Proof.
  pose proof (uiReachable_init "" "New " GroupRoles.init) as H0.
  pose proof (uiReachable_step _ _ _ _ AddEntity _ H0 eq_refl eq_refl) as H1.
  pose proof (uiReachable_step _ _ _ _ (RequestDelete (Num 1)) _ H1
                eq_refl eq_refl) as H2.
  pose proof (uiReachable_step _ _ _ _ ConfirmDelete _ H2 eq_refl eq_refl)
    as H3.
  pose proof (uiReachable_step _ _ _ _ (RequestDelete (Num 2)) _ H3
                eq_refl eq_refl) as H4.
  pose proof (uiReachable_step _ _ _ _ ConfirmDelete _ H4 eq_refl eq_refl)
    as H5.
  pose proof (uiReachable_step _ _ _ _ (RequestDelete (Num 3)) _ H5
                eq_refl eq_refl) as H6.
  pose proof (uiReachable_step _ _ _ _ ConfirmDelete _ H6 eq_refl eq_refl)
    as H7.
  exact H7.
Qed.

(** Every state with a single added role of id 4 to 2^53 is reached
    through the controls. *)
Lemma only_reached (n : Z) :
  4 <= n <= 9007199254740992 ->
  uiReachable "" "New " GroupRoles.init (Scenario.only n).
Proof.
  intros Hn. replace n with (4 + (n - 4)) by lia.
  assert (Hk : 0 <= n - 4) by lia.
  assert (Hle : 4 + (n - 4) <= 9007199254740992) by lia.
  revert Hle. generalize (n - 4) Hk. clear n Hn Hk.
  apply (natlike_ind
           (fun k => 4 + k <= 9007199254740992 ->
                     uiReachable "" "New " GroupRoles.init
                       (Scenario.only (4 + k)))).
  - intros _. apply only_4_reached.
  - intros k Hk IH Hle.
    replace (4 + Z.succ k) with (4 + k + 1) by lia.
    apply only_next; [lia|]. apply IH. lia.
Qed.

(** With the single role of id 2^53, a state the Group Roles editor
    reaches through its controls, addEntity() adds a role under the same
    id 2^53, named "New 9007199254740992": the new id is not greater than
    the id already in the Collection. *)
Lemma C2_largest_id_repeated :
  let st := Scenario.only 9007199254740992 in
  let st' := GroupRoles.handleAddRole st in
  uiReachable "" "New " GroupRoles.init st /\
  map Role.id (roles st) = [Num 9007199254740992] /\
  map Role.id (roles st') = [Num 9007199254740992; Num 9007199254740992] /\
  selectedRoleId st' = Num 9007199254740992 /\
  Role.name (editingRole st') = "New 9007199254740992" /\
  ¬ number_lt (Num 9007199254740992) (selectedRoleId st').
Proof.
  cbv zeta. split; [apply only_reached; lia|].
  split; [reflexivity|]. split; [vm_compute; reflexivity|].
  split; [vm_compute; reflexivity|]. split; [vm_compute; reflexivity|].
  intros Hlt. vm_compute in Hlt. discriminate Hlt.
Qed.
